(** * mock_toolkit: the triage agent's mock chooser, tools and decision function

    A shallow embedding of [mock_toolkit/__init__.py].

    Modelling conventions.
    - Python text that the toolkit inspects ([prompt], [text], [question],
      [user_input], the chooser's reply) is a [string] whose characters are
      the code points U+0000..U+00FF; [lower] is [str.lower] on that range.
    - Text decoded from JSON may hold any code point (through [\uXXXX]
      escapes), so a decoded [str] carries a list of code points.
    - A Python call either returns or raises: [outcome].
    - Two limits of the interpreter reach [json.loads] and are modelled:
      the depth of recursion and the number of decimal digits that [int]
      converts ([interpreter]).  Running out of memory is not modelled. *)

From Stdlib Require Import Bool List Arith Lia NArith ZArith Ascii String.
Import ListNotations.

Local Open Scope list_scope.
Local Open Scope string_scope.

(* ================================================================== *)
(** ** Python [str] operations used by the toolkit *)

Module Str.

(** The double quote and the line feed, which a literal cannot hold. *)
Definition dquote : ascii := "034"%char.
Definition newline : string := String "010"%char "".

(** [quoted s] is [s] between double quotes. *)
Definition quoted (s : string) : string :=
  String dquote (s ++ String dquote "").

(** [c.lower()] for one code point below U+0100: the upper-case letters are
    A..Z and U+00C0..U+00DE without the multiplication sign U+00D7, and each
    has its lower-case partner 32 places up. *)
Definition lower_char (c : ascii) : ascii :=
  let n := N_of_ascii c in
  if ((65 <=? n) && (n <=? 90))%N
     || ((192 <=? n) && (n <=? 222) && negb (n =? 215))%N
  then ascii_of_N (n + 32)
  else c.

(** [s.lower()] *)
Fixpoint lower (s : string) : string :=
  match s with
  | "" => ""
  | String c s' => String (lower_char c) (lower s')
  end.

(** [sub in s] *)
Fixpoint contains (sub s : string) : bool :=
  prefix sub s
  || match s with
     | "" => false
     | String _ s' => contains sub s'
     end.

(** [any(kw in s for kw in kws)] *)
Definition any_in (kws : list string) (s : string) : bool :=
  existsb (fun kw => contains kw s) kws.

(** [s.split(sep)] for a non-empty [sep] (Python raises [ValueError] on an
    empty one; the toolkit only splits on a constant).  The scan goes left
    to right: where [sep] starts, the current piece is closed and the
    following [length sep - 1] characters are stepped over; any other
    character joins the current piece. *)
Fixpoint split_scan (sep : string) (skip : nat) (piece s : string)
  : list string :=
  match s with
  | "" => [piece]
  | String c rest =>
      match skip with
      | S k => split_scan sep k piece rest
      | O =>
          if prefix sep s
          then piece :: split_scan sep (length sep - 1) "" rest
          else split_scan sep 0 (piece ++ String c "") rest
      end
  end.

Definition split (sep s : string) : list string := split_scan sep 0 "" s.

(** [s * n] *)
Fixpoint times (s : string) (n : nat) : string :=
  match n with
  | O => ""
  | S n' => s ++ times s n'
  end.

(** [l[-1]] on a list of strings that is never empty here. *)
Definition last_item (l : list string) : string := last l "".

End Str.

Import Str.

(* ================================================================== *)
(** ** Mock LLM client *)

(** The interface of an LLM client: [.chat(prompt)] gives a string back. *)
Record llm_client := { chat : string -> string }.

Definition marker : string := "User input: ".

Definition action_json (action : string) : string :=
  "{" ++ quoted "action" ++ ": " ++ quoted action ++ "}".

Definition MockLLMClient_chat (prompt : string) : string :=
  let user_part :=
    if contains marker prompt
    then lower (last_item (split marker prompt))
    else lower prompt in
  if any_in ["rate"; "inflation"; "monetary"] user_part
  then action_json "retrieve_and_answer"
  else if any_in ["classify"; "label"; "topic"] user_part
  then action_json "classify_only"
  else action_json "refuse".

Definition MockLLMClient : llm_client := {| chat := MockLLMClient_chat |}.

(* ================================================================== *)
(** ** Allowed actions and the three tools *)

Definition ALLOWED_ACTIONS : list string :=
  ["retrieve_and_answer"; "classify_only"; "refuse"].

Definition REFUSAL_TEXT : string :=
  "Refused: I am not authorised to act on this request.".

Definition classify_only (text : string) : string :=
  let text_lower := lower text in
  if any_in ["rate"; "inflation"; "monetary"; "central bank"] text_lower
  then "Topic: Interest Rates & Monetary Policy"
  else if any_in ["loan"; "mortgage"; "lending"; "credit"] text_lower
  then "Topic: Lending & Credit"
  else if any_in ["stock"; "equity"; "market"; "earning"] text_lower
  then "Topic: Equity Markets"
  else "Topic: Out of Domain".

(** The dict literal, in insertion order (the order [.items()] yields). *)
Definition KNOWLEDGE_BASE : list (string * string) :=
  [ ("rate",
     "The central bank raised interest rates by 25 basis points to combat persistent inflation.");
    ("inflation",
     "Inflation remained elevated at 4.2% year-on-year, driven by energy prices.");
    ("mortgage",
     "Mortgage rates reached a two-decade high, causing home sales to decline 15%.");
    ("loan",
     "Lending standards tightened as banks responded to higher funding costs.");
    ("monetary",
     "The dual mandate requires balancing maximum employment with price stability.") ].

(** The [for keyword, answer in items: if keyword in question_lower: return]
    loop; [None] when the loop falls through. *)
Fixpoint first_hit (items : list (string * string)) (question_lower : string)
  : option string :=
  match items with
  | [] => None
  | (keyword, answer) :: items' =>
      if contains keyword question_lower
      then Some ("Based on retrieved documents: " ++ answer)
      else first_hit items' question_lower
  end.

Definition retrieve_and_answer (question : string) : string :=
  let question_lower := lower question in
  match first_hit KNOWLEDGE_BASE question_lower with
  | Some grounded => grounded
  | None => "Based on retrieved documents: No relevant information found."
  end.

Definition refuse (_ : unit) : string := REFUSAL_TEXT.

(* ================================================================== *)
(** ** Python values, exceptions, and [json.loads] *)

(** A decoded Python [str]: its code points. *)
Definition ustr := list N.

(** The code points of a literal. *)
Definition text (s : string) : ustr := map N_of_ascii (list_ascii_of_string s).

(** The Python objects that [json.loads] can build.  A [float] keeps the
    numeral it was read from; the toolkit never computes with it.  A [dict]
    lists its items in insertion order, each key once. *)
#[local] Unset Elimination Schemes.
Inductive value : Type :=
| VNone
| VBool (b : bool)
| VInt (z : Z)
| VFloat (numeral : string)
| VStr (u : ustr)
| VList (items : list value)
| VDict (items : list (ustr * value)).
#[local] Set Elimination Schemes.

(** The exceptions that the toolkit can meet.  [JSONDecodeError] is a
    subclass of [ValueError]; an [except] clause that names
    [JSONDecodeError] does not catch a plain [ValueError]. *)
Inductive exn : Type :=
| JSONDecodeError
| AttributeError
| TypeError
| RecursionError
| ValueError.

Inductive outcome (A : Type) : Type :=
| Returns (a : A)
| Raises (e : exn).
Arguments Returns {A} a.
Arguments Raises {A} e.

Definition bind {A B} (m : outcome A) (k : A -> outcome B) : outcome B :=
  match m with
  | Returns a => k a
  | Raises e => Raises e
  end.

Notation "x <- m ;; k" := (bind m (fun x => k))
  (at level 61, m at next level, right associativity).

Definition exn_eqb (e1 e2 : exn) : bool :=
  match e1, e2 with
  | JSONDecodeError, JSONDecodeError
  | AttributeError, AttributeError
  | TypeError, TypeError
  | RecursionError, RecursionError
  | ValueError, ValueError => true
  | _, _ => false
  end.

(** [try: x = body  except (caught...): x = handler]; an exception that is
    not listed keeps propagating. *)
Definition try_except {A} (body : outcome A) (caught : list exn) (handler : A)
  : outcome A :=
  match body with
  | Returns a => Returns a
  | Raises e => if existsb (exn_eqb e) caught then Returns handler else Raises e
  end.

Definition ustr_eqb (u1 u2 : ustr) : bool :=
  if list_eq_dec N.eq_dec u1 u2 then true else false.

(** [d[key] = v] *)
Fixpoint dict_set (d : list (ustr * value)) (key : ustr) (v : value)
  : list (ustr * value) :=
  match d with
  | [] => [(key, v)]
  | (k, w) :: d' =>
      if ustr_eqb k key then (k, v) :: d' else (k, w) :: dict_set d' key v
  end.

Fixpoint dict_lookup (d : list (ustr * value)) (key : ustr) : option value :=
  match d with
  | [] => None
  | (k, w) :: d' => if ustr_eqb k key then Some w else dict_lookup d' key
  end.

(** *** The limits of the interpreter

    What [json.loads] can do depends on two settings of the running
    interpreter.  [recursion_room] is the number of containers (arrays,
    objects) that the scanner may still enter one inside the other before
    the interpreter raises [RecursionError]: the recursion limit less the
    calls already on the stack.  [int_max_str_digits] is
    [sys.get_int_max_str_digits()]: [int] refuses a decimal numeral with
    more digits, and 0 switches the limit off. *)
Record interpreter : Type := {
  recursion_room : nat;
  int_max_str_digits : nat
}.

(** CPython 3.11 as it starts: a recursion limit of 1000, of which six calls
    are in use when [decide_action], called from the top level of a script,
    has the scanner of [json.loads] running; and 4300 digits. *)
Definition cpython : interpreter :=
  {| recursion_room := 1000 - 6; int_max_str_digits := 4300 |}.

(** *** The decoder of the [json] package

    [json.loads] with its default arguments, after [json/decoder.py] and
    [json/scanner.py]: strict strings, [NaN], [Infinity] and [-Infinity]
    accepted, repeated keys resolved in favour of the last one,
    [RecursionError] when the containers nest deeper than the interpreter
    allows, [ValueError] when an integer has more digits than [int]
    converts. *)
Module json.

Definition is_ws (c : ascii) : bool :=
  let n := N_of_ascii c in
  ((n =? 32) || (n =? 9) || (n =? 10) || (n =? 13))%N.

(** [WHITESPACE.match(s, idx).end()] *)
Fixpoint skip_ws (s : string) : string :=
  match s with
  | "" => ""
  | String c rest => if is_ws c then skip_ws rest else s
  end.

Definition is_digit (c : ascii) : bool :=
  let n := N_of_ascii c in ((48 <=? n) && (n <=? 57))%N.

Definition hex_digit (c : ascii) : option N :=
  let n := N_of_ascii c in
  if ((48 <=? n) && (n <=? 57))%N then Some (n - 48)%N
  else if ((65 <=? n) && (n <=? 70))%N then Some (n - 55)%N
  else if ((97 <=? n) && (n <=? 102))%N then Some (n - 87)%N
  else None.

(** [_decode_uXXXX]: exactly four hexadecimal digits. *)
Definition decode_uXXXX (h1 h2 h3 h4 : ascii) : option N :=
  match hex_digit h1, hex_digit h2, hex_digit h3, hex_digit h4 with
  | Some a, Some b, Some c, Some d => Some (((a * 16 + b) * 16 + c) * 16 + d)%N
  | _, _, _, _ => None
  end.

(** The [BACKSLASH] table. *)
Definition backslash (e : ascii) : option N :=
  let n := N_of_ascii e in
  if (n =? 34)%N then Some 34%N          (* quote *)
  else if (n =? 92)%N then Some 92%N     (* backslash *)
  else if (n =? 47)%N then Some 47%N     (* slash *)
  else if (n =? 98)%N then Some 8%N      (* b *)
  else if (n =? 102)%N then Some 12%N    (* f *)
  else if (n =? 110)%N then Some 10%N    (* n *)
  else if (n =? 114)%N then Some 13%N    (* r *)
  else if (n =? 116)%N then Some 9%N     (* t *)
  else None.

Definition is_high_surrogate (u : N) : bool := ((55296 <=? u) && (u <=? 56319))%N.
Definition is_low_surrogate (u : N) : bool := ((56320 <=? u) && (u <=? 57343))%N.

Definition prepend (c : N) (r : option (ustr * string)) : option (ustr * string) :=
  match r with
  | Some (u, rest) => Some (c :: u, rest)
  | None => None
  end.

(** [scanstring(s, end, strict=True)], entered just after the opening
    quote: the decoded text and what follows the closing quote, or [None]
    for an unterminated string, a control character, or a bad escape. *)
Fixpoint scanstring (s : string) : option (ustr * string) :=
  match s with
  | "" => None
  | String c rest =>
      let n := N_of_ascii c in
      if (n =? 34)%N then Some ([], rest)            (* closing quote *)
      else if (n =? 92)%N then                       (* backslash *)
        match rest with
        | "" => None
        | String e rest1 =>
            if (N_of_ascii e =? 117)%N then          (* u and four hexadecimal digits *)
              match rest1 with
              | String h1 (String h2 (String h3 (String h4 rest2))) =>
                  match decode_uXXXX h1 h2 h3 h4 with
                  | None => None
                  | Some uni =>
                      if is_high_surrogate uni then
                        match rest2 with
                        | String b (String u (String l1 (String l2 (String l3 (String l4 rest3))))) =>
                            if ((N_of_ascii b =? 92) && (N_of_ascii u =? 117))%N then
                              match decode_uXXXX l1 l2 l3 l4 with
                              | None => None
                              | Some uni2 =>
                                  if is_low_surrogate uni2
                                  then prepend (65536 + (uni - 55296) * 1024 + (uni2 - 56320))%N
                                               (scanstring rest3)
                                  else prepend uni (scanstring rest2)
                              end
                            else prepend uni (scanstring rest2)
                        | _ => prepend uni (scanstring rest2)
                        end
                      else prepend uni (scanstring rest2)
                  end
              | _ => None
              end
            else
              match backslash e with
              | Some d => prepend d (scanstring rest1)
              | None => None
              end
        end
      else if (n <? 32)%N then None                  (* control character *)
      else prepend n (scanstring rest)
  end.

(** The longest run of decimal digits at the head of [s], and the rest. *)
Fixpoint span_digits (s : string) : string * string :=
  match s with
  | "" => ("", "")
  | String c rest =>
      if is_digit c
      then let (ds, r) := span_digits rest in (String c ds, r)
      else ("", s)
  end.

(** [int(ds)] for a run of decimal digits. *)
Fixpoint digits_value (acc : Z) (ds : string) : Z :=
  match ds with
  | "" => acc
  | String c rest => digits_value (acc * 10 + Z.of_N (N_of_ascii c - 48)) rest
  end.

(** The groups of [NUMBER_RE], each with the text it leaves: an optional
    minus sign; an integer part (a lone zero, or a non-zero digit and further
    digits); an optional fraction (a dot and at least one digit); an optional
    exponent (e or E, an optional sign, at least one digit). *)
Definition optional_minus (s : string) : string * string :=
  match s with
  | String c r => if (N_of_ascii c =? 45)%N then ("-", r) else ("", s)
  | "" => ("", s)
  end.

Definition integer_part (s : string) : option (string * string) :=
  match s with
  | "" => None
  | String c r =>
      if is_digit c
      then Some (if (N_of_ascii c =? 48)%N then ("0", r) else span_digits s)
      else None
  end.

Definition fraction_part (s : string) : string * string :=
  match s with
  | String dot r =>
      if (N_of_ascii dot =? 46)%N then
        match span_digits r with
        | ("", _) => ("", s)
        | (digits, r') => (String dot digits, r')
        end
      else ("", s)
  | "" => ("", s)
  end.

Definition optional_sign (s : string) : string * string :=
  match s with
  | String g r =>
      if ((N_of_ascii g =? 43) || (N_of_ascii g =? 45))%N
      then (String g "", r) else ("", s)
  | "" => ("", s)
  end.

Definition exponent_part (s : string) : string * string :=
  match s with
  | String e r =>
      if ((N_of_ascii e =? 101) || (N_of_ascii e =? 69))%N then
        let (sign, r1) := optional_sign r in
        match span_digits r1 with
        | ("", _) => ("", s)
        | (digits, r2) => (String e (sign ++ digits), r2)
        end
      else ("", s)
  | "" => ("", s)
  end.

(** What [NUMBER_RE.match] finds: the numeral of an integer (its sign and
    its digits) when there is neither fraction nor exponent, the numeral of
    a [float] otherwise. *)
Inductive numeral : Type :=
| IntNumeral (sign digits : string)
| FloatNumeral (numeral : string).

Definition match_number (s : string) : option (numeral * string) :=
  let (sign, s1) := optional_minus s in
  match integer_part s1 with
  | None => None
  | Some (integer, s2) =>
      let (frac, s3) := fraction_part s2 in
      let (exp, s4) := exponent_part s3 in
      match frac, exp with
      | "", "" => Some (IntNumeral sign integer, s4)
      | _, _ => Some (FloatNumeral (sign ++ integer ++ frac ++ exp), s4)
      end
  end.

(** [int(sign + digits)]: [ValueError] when the limit is on and there are
    more digits than it allows (the sign does not count). *)
Definition parse_int (py : interpreter) (sign digits : string) : outcome value :=
  if ((0 <? int_max_str_digits py) && (int_max_str_digits py <? length digits))%nat
  then Raises ValueError
  else
    let magnitude := digits_value 0 digits in
    Returns (VInt (if (sign =? "")%string then magnitude else (- magnitude)%Z)).

(** [s[idx:idx + len(word)] == word], with what follows the word. *)
Fixpoint after_word (word s : string) : option string :=
  match word, s with
  | "", _ => Some s
  | String a word', String b s' =>
      if (a =? b)%char then after_word word' s' else None
  | String _ _, "" => None
  end.

(** What one scanning call yields: a value and the text after it; a
    decoding error ([Malformed], raised as [JSONDecodeError]); another
    exception; or the end of the budget of calls that keeps the definition
    structural ([Exhausted], which never happens, see
    [json_facts.scanning_budget]). *)
Inductive scanned : Type :=
| Scanned (v : value) (rest : string)
| Malformed
| Failed (e : exn)
| Exhausted.

(** The tail of [scan_once]: [null], [true], [false], a number, [NaN],
    [Infinity], [-Infinity], tried in this order. *)
Definition scan_constant (py : interpreter) (s : string) : scanned :=
  match after_word "null" s, after_word "true" s, after_word "false" s with
  | Some rest, _, _ => Scanned VNone rest
  | _, Some rest, _ => Scanned (VBool true) rest
  | _, _, Some rest => Scanned (VBool false) rest
  | None, None, None =>
      match match_number s with
      | Some (IntNumeral sign digits, rest) =>
          match parse_int py sign digits with
          | Returns v => Scanned v rest
          | Raises e => Failed e
          end
      | Some (FloatNumeral numeral, rest) => Scanned (VFloat numeral) rest
      | None =>
          match after_word "NaN" s, after_word "Infinity" s,
                after_word "-Infinity" s with
          | Some rest, _, _ => Scanned (VFloat "nan") rest
          | _, Some rest, _ => Scanned (VFloat "inf") rest
          | _, _, Some rest => Scanned (VFloat "-inf") rest
          | None, None, None => Malformed
          end
      end
  end.

(** [scan_once(s, idx)] together with the loops of [JSONArray] and
    [JSONObject], which call it back.  [array_items] is entered at the
    first character of an element, [object_items] just after the opening
    quote of a key; [items] holds what the loop has collected so far.
    [room] is the number of containers that may still be entered: the
    scanner asks the interpreter on meeting the opening bracket or brace,
    before it looks at what the container holds. *)
Fixpoint scan_once (py : interpreter) (budget room : nat) (s : string)
  {struct budget} : scanned :=
  match budget with
  | O => Exhausted
  | S budget' =>
      match s with
      | "" => Malformed
      | String c rest =>
          let n := N_of_ascii c in
          if (n =? 34)%N then                       (* a string *)
            match scanstring rest with
            | Some (u, rest') => Scanned (VStr u) rest'
            | None => Malformed
            end
          else if (n =? 123)%N then                 (* an object, after its opening brace *)
            match room with
            | O => Failed RecursionError
            | S room' =>
                match skip_ws rest with
                | String c1 rest1 =>
                    if (N_of_ascii c1 =? 125)%N           (* closing brace: empty object *)
                    then Scanned (VDict []) rest1
                    else if (N_of_ascii c1 =? 34)%N       (* quote: first key *)
                    then object_items py budget' room' [] rest1
                    else Malformed
                | "" => Malformed
                end
            end
          else if (n =? 91)%N then                  (* an array, after its opening bracket *)
            match room with
            | O => Failed RecursionError
            | S room' =>
                match skip_ws rest with
                | String c1 rest1 as elems =>
                    if (N_of_ascii c1 =? 93)%N            (* closing bracket: empty array *)
                    then Scanned (VList []) rest1
                    else array_items py budget' room' [] elems
                | "" => Malformed
                end
            end
          else scan_constant py s
      end
  end

with array_items (py : interpreter) (budget room : nat) (items : list value)
                 (s : string) {struct budget} : scanned :=
  match budget with
  | O => Exhausted
  | S budget' =>
      match scan_once py budget' room s with
      | Scanned v rest =>
          match skip_ws rest with
          | String c rest1 =>
              if (N_of_ascii c =? 93)%N                   (* closing bracket *)
              then Scanned (VList (items ++ [v])%list) rest1
              else if (N_of_ascii c =? 44)%N              (* comma *)
              then array_items py budget' room (items ++ [v])%list (skip_ws rest1)
              else Malformed
          | "" => Malformed
          end
      | Malformed => Malformed
      | Failed e => Failed e
      | Exhausted => Exhausted
      end
  end

with object_items (py : interpreter) (budget room : nat)
                  (items : list (ustr * value)) (s : string)
  {struct budget} : scanned :=
  match budget with
  | O => Exhausted
  | S budget' =>
      match scanstring s with
      | None => Malformed
      | Some (key, rest) =>
          match skip_ws rest with
          | String colon rest1 =>
              if (N_of_ascii colon =? 58)%N then          (* colon *)
                match scan_once py budget' room (skip_ws rest1) with
                | Scanned v rest2 =>
                    let items' := dict_set items key v in
                    match skip_ws rest2 with
                    | String c rest3 =>
                        if (N_of_ascii c =? 125)%N        (* closing brace *)
                        then Scanned (VDict items') rest3
                        else if (N_of_ascii c =? 44)%N then (* comma, then the next key *)
                          match skip_ws rest3 with
                          | String q rest4 =>
                              if (N_of_ascii q =? 34)%N
                              then object_items py budget' room items' rest4
                              else Malformed
                          | "" => Malformed
                          end
                        else Malformed
                    | "" => Malformed
                    end
                | Malformed => Malformed
                | Failed e => Failed e
                | Exhausted => Exhausted
                end
              else Malformed
          | "" => Malformed
          end
      end
  end.

(** [json.loads(s)] in the interpreter [py]: leading white space, one
    value, trailing white space, and nothing else.  A budget of
    [2 * len(s) + 1] calls always suffices
    ([json_facts.loads_in_outcomes]). *)
Definition loads_in (py : interpreter) (s : string) : outcome value :=
  match scan_once py (2 * length s + 1) (recursion_room py) (skip_ws s) with
  | Scanned v rest =>
      match skip_ws rest with
      | "" => Returns v
      | String _ _ => Raises JSONDecodeError
      end
  | Malformed => Raises JSONDecodeError
  | Failed e => Raises e
  | Exhausted => Raises RecursionError
  end.

(** [json.loads(s)] as the toolkit runs it. *)
Definition loads (s : string) : outcome value := loads_in cpython s.

End json.

(* ================================================================== *)
(** ** Decision function *)

(** [obj.get(key, default)]: only a [dict] has the method. *)
Definition get (obj : value) (key : ustr) (default : value) : outcome value :=
  match obj with
  | VDict items =>
      Returns (match dict_lookup items key with
               | Some v => v
               | None => default
               end)
  | _ => Raises AttributeError
  end.

(** [hash(v)] succeeds except on a [list] or a [dict]. *)
Definition hashable (v : value) : bool :=
  match v with
  | VList _ | VDict _ => false
  | _ => true
  end.

(** [v in members] for a set of [str]: the candidate is hashed first, and
    only a [str] can equal a member. *)
Definition set_contains (members : list string) (v : value) : outcome bool :=
  if hashable v then
    Returns (match v with
             | VStr u => existsb (fun m => ustr_eqb u (text m)) members
             | _ => false
             end)
  else Raises TypeError.

Definition str (s : string) : value := VStr (text s).

Definition build_prompt (user_input : string) : string :=
  "Choose exactly one action: retrieve_and_answer, classify_only, refuse"
  ++ newline
  ++ "Return ONLY valid JSON: {" ++ quoted "action" ++ ": " ++ quoted "<action>" ++ "}"
  ++ newline
  ++ "User input: " ++ user_input.

(** The body of the [try] block. *)
Definition parse_action (raw : string) : outcome value :=
  obj <- json.loads raw ;;
  get obj (text "action") (str "refuse").

Definition decide_action (client : llm_client) (user_input : string)
  : outcome value :=
  let prompt := build_prompt user_input in
  let raw := chat client prompt in
  action <- try_except (parse_action raw) [JSONDecodeError; AttributeError]
                       (str "refuse") ;;
  allowed <- set_contains ALLOWED_ACTIONS action ;;
  Returns (if negb allowed then str "refuse" else action).

(* ================================================================== *)
(** ** The definitions at work *)

Example split_twice :
  split marker "a User input: b User input: c" = ["a "; "b "; "c"].
Proof. reflexivity. Qed.

Example split_trailing : split "SEP" "aSEP" = ["a"; ""].
Proof. reflexivity. Qed.

Example lower_latin1 : lower "Central BANK [\]^_`{z}@" = "central bank [\]^_`{z}@".
Proof. reflexivity. Qed.

Example loads_repeated_key :
  json.loads ("{" ++ quoted "a" ++ ": 1, " ++ quoted "b" ++ ": [true, null, -0, 2.5e3], "
              ++ quoted "a" ++ " : NaN }")
  = Returns (VDict [(text "a", VFloat "nan");
                    (text "b", VList [VBool true; VNone; VInt 0; VFloat "2.5e3"])]).
Proof. reflexivity. Qed.

Example loads_surrogate_pair :
  json.loads (quoted "\ud83d\ude00\u00e9\n") = Returns (VStr [128512; 233; 10]%N).
Proof. reflexivity. Qed.

Example loads_rejects :
  map json.loads ["not json"; ""; "01"; "1."; "[1,]"; "[[["; "{}x"; quoted "\x"]
  = repeat (Raises JSONDecodeError) 8.
Proof. reflexivity. Qed.

(** The two limits at work, in an interpreter with room for two nested
    containers and integers of at most three digits. *)
Example loads_in_small_limits :
  let py := {| recursion_room := 2; int_max_str_digits := 3 |} in
  map (json.loads_in py)
      ["[[1]]"; "[[[1]]]"; "[["; "[[["; "[[], [1], 0]";
       "123"; "1234"; "-123"; "-1234"; "1234.5"; "1234 x"; "[1234"]
  = [Returns (VList [VList [VInt 1]]); Raises RecursionError;
     Raises JSONDecodeError; Raises RecursionError;
     Returns (VList [VList []; VList [VInt 1]; VInt 0]);
     Returns (VInt 123); Raises ValueError; Returns (VInt (-123));
     Raises ValueError; Returns (VFloat "1234.5"); Raises ValueError;
     Raises ValueError].
Proof. reflexivity. Qed.

Example decide_action_delete_everything :
  decide_action {| chat := fun _ => action_json "delete_everything" |} "hi"
  = Returns (str "refuse").
Proof. reflexivity. Qed.

Example decide_action_marker_in_input :
  decide_action MockLLMClient "rate User input: hello" = Returns (str "refuse").
Proof. reflexivity. Qed.

Example decide_action_number :
  decide_action {| chat := fun _ => "{" ++ quoted "action" ++ ": 5}" |} "hi"
  = Returns (str "refuse").
Proof. reflexivity. Qed.

(* ================================================================== *)
(** ** What the claims speak about *)

(** [kw] occurs in [text] when upper and lower case are not told apart:
    some stretch of [text] lower-cases to the lower-cased [kw]. *)
Definition occurs_ci (kw text : string) : Prop :=
  exists before hit after,
    text = before ++ hit ++ after /\ lower hit = lower kw.

Definition some_occurs_ci (kws : list string) (text : string) : Prop :=
  Exists (fun kw => occurs_ci kw text) kws.

(** [user_text] is what follows the last [marker] of [prompt], or all of
    [prompt] when it holds no [marker]. *)
Definition is_user_text (prompt user_text : string) : Prop :=
  (contains marker prompt = false /\ user_text = prompt)
  \/ (exists before,
        prompt = before ++ marker ++ user_text
        /\ contains marker user_text = false).

(** [sep] is unbordered when none of its proper non-empty endings is also
    one of its beginnings; two occurrences of such a [sep] never overlap. *)
Definition unbordered (sep : string) : Prop :=
  forall u t, u <> "" -> t <> "" -> sep = u ++ t -> prefix t sep = false.

(** While the scan of [split] steps over a separator it has met, the last
    [skip] characters of that separator are still ahead in [s]. *)
Definition pending (sep : string) (skip : nat) (s : string) : Prop :=
  skip = 0
  \/ exists u t, u <> "" /\ sep = u ++ t /\ length t = skip /\ prefix t s = true.

(** A character that a JSON string holds as it is: no control character,
    no double quote, no backslash. *)
Definition plain_char (c : ascii) : bool :=
  let n := N_of_ascii c in
  ((32 <=? n) && negb (n =? 34) && negb (n =? 92))%N.

Fixpoint plain (s : string) : bool :=
  match s with
  | "" => true
  | String c s' => plain_char c && plain s'
  end.

(** A chooser that answers every prompt with the same reply. *)
Definition constant_client (reply : string) : llm_client :=
  {| chat := fun _ => reply |}.

(* ================================================================== *)
(** ** Strings: concatenation, prefixes, occurrences *)

Section StringFacts.

Lemma append_assoc (a b c : string) : (a ++ b) ++ c = a ++ (b ++ c).
Proof. induction a as [|x a IH]; simpl; [reflexivity | now rewrite IH]. Qed.

Lemma append_empty_r (a : string) : a ++ "" = a.
Proof. induction a as [|x a IH]; simpl; [reflexivity | now rewrite IH]. Qed.

Lemma length_append (a b : string) : length (a ++ b) = length a + length b.
Proof. induction a as [|x a IH]; simpl; [reflexivity | now rewrite IH]. Qed.

Lemma prefix_cons (a b : ascii) (p s : string) :
  prefix (String a p) (String b s) = true <-> a = b /\ prefix p s = true.
Proof.
  simpl. destruct (ascii_dec a b) as [->|Hne]; split; intros H.
  - now split.
  - now destruct H.
  - discriminate.
  - destruct H as [H _]. contradiction.
Qed.

Lemma prefix_iff (p s : string) :
  prefix p s = true <-> exists r, s = p ++ r.
Proof.
  revert s. induction p as [|a p IH]; intros s.
  - split; [intros _; now exists s | intros _; now destruct s].
  - destruct s as [|b s].
    + split; [discriminate | intros [r Hr]; discriminate].
    + rewrite prefix_cons, IH. split.
      * intros [-> [r ->]]. now exists r.
      * intros [r Hr]. simpl in Hr. injection Hr as -> ->. split; [reflexivity | now exists r].
Qed.

Lemma prefix_append (p r : string) : prefix p (p ++ r) = true.
Proof. apply prefix_iff. now exists r. Qed.

(** A prefix of [a ++ b] no longer than [a] is a prefix of [a]. *)
Lemma prefix_short (t a b : string) :
  prefix t (a ++ b) = true -> length t <= length a -> prefix t a = true.
Proof.
  revert a. induction t as [|c t IH]; intros a H Hlen.
  - now destruct a.
  - destruct a as [|x a]; simpl in Hlen; [lia|].
    change (String x a ++ b) with (String x (a ++ b)) in H.
    apply prefix_cons in H as [-> H]. apply prefix_cons. split; [reflexivity|].
    apply IH; [assumption | lia].
Qed.

Lemma contains_iff (sub s : string) :
  contains sub s = true <-> exists a b, s = a ++ sub ++ b.
Proof.
  induction s as [|c s IH]; cbn [contains].
  - rewrite orb_false_r, prefix_iff. split.
    + intros [r Hr]. now exists "", r.
    + intros (a & b & H). destruct a; [now exists b | discriminate].
  - rewrite orb_true_iff, IH. split.
    + intros [H | (a & b & ->)].
      * apply prefix_iff in H as [r Hr]. now exists "", r.
      * now exists (String c a), b.
    + intros ([|x a] & b & H).
      * left. apply prefix_iff. now exists b.
      * right. simpl in H. injection H as -> ->. now exists a, b.
Qed.

Lemma contains_append (a sub b : string) : contains sub (a ++ sub ++ b) = true.
Proof. apply contains_iff. now exists a, b. Qed.

Lemma contains_false_tail (sub : string) (c : ascii) (s : string) :
  contains sub (String c s) = false -> contains sub s = false.
Proof. simpl. intros H. now apply orb_false_iff in H. Qed.

Lemma contains_false_suffix (sub a b : string) :
  contains sub (a ++ b) = false -> contains sub b = false.
Proof.
  induction a as [|c a IH]; simpl append; intros H; [assumption|].
  apply IH. eapply contains_false_tail, H.
Qed.

Lemma lower_append (a b : string) : lower (a ++ b) = lower a ++ lower b.
Proof. induction a as [|c a IH]; simpl; [reflexivity | now rewrite IH]. Qed.

(** [lower] works character by character, so a cut of [lower s] comes from
    a cut of [s]. *)
Lemma lower_cut (s x y : string) :
  lower s = x ++ y ->
  exists s1 s2, s = s1 ++ s2 /\ lower s1 = x /\ lower s2 = y.
Proof.
  revert s. induction x as [|c x IH]; intros s H.
  - now exists "", s.
  - destruct s as [|d s]; [discriminate|].
    simpl in H. injection H as Hc H.
    destruct (IH _ H) as (s1 & s2 & -> & H1 & H2).
    exists (String d s1), s2. simpl. now rewrite Hc, H1.
Qed.

(** The test the tools run, [kw in text.lower()], is the occurrence of [kw]
    regardless of case. *)
Lemma contains_lower_iff (kw text : string) :
  contains (lower kw) (lower text) = true <-> occurs_ci kw text.
Proof.
  rewrite contains_iff. split.
  - intros (a & b & H).
    destruct (lower_cut _ _ _ H) as (s1 & s2 & -> & H1 & H2).
    destruct (lower_cut _ _ _ H2) as (s3 & s4 & -> & H3 & H4).
    now exists s1, s3, s4.
  - intros (before & hit & after & -> & H).
    exists (lower before), (lower after).
    now rewrite !lower_append, H.
Qed.

Lemma any_in_lower_iff (kws : list string) (text : string) :
  any_in (map lower kws) (lower text) = true <-> some_occurs_ci kws text.
Proof.
  unfold any_in, some_occurs_ci.
  induction kws as [|kw kws IH]; simpl.
  - split; [discriminate | intros H; inversion H].
  - rewrite orb_true_iff, IH, contains_lower_iff. split.
    + intros [H | H]; [now left | now right].
    + intros H. inversion H; subst; [now left | now right].
Qed.

Lemma any_in_lower_false (kws : list string) (text : string) :
  ~ some_occurs_ci kws text -> any_in (map lower kws) (lower text) = false.
Proof.
  intros H. destruct (any_in (map lower kws) (lower text)) eqn:E; [|reflexivity].
  now apply any_in_lower_iff in E.
Qed.

End StringFacts.

(* ================================================================== *)
(** ** [split]: the last piece is what follows the last separator *)

Lemma split_scan_skip (sep x piece s : string) :
  split_scan sep (length x) piece (x ++ s) = split_scan sep 0 piece s.
Proof.
  induction x as [|c x IH]; [reflexivity | exact IH].
Qed.

Lemma split_scan_at_sep (sep piece s : string) :
  sep <> "" ->
  split_scan sep 0 piece (sep ++ s) = piece :: split_scan sep 0 "" s.
Proof.
  intros Hne. pose proof (prefix_append sep s) as Hp.
  destruct sep as [|a p]; [contradiction|].
  change (String a p ++ s) with (String a (p ++ s)) in *.
  cbn [split_scan]. rewrite Hp. f_equal.
  replace (length (String a p) - 1) with (length p) by (simpl; lia).
  apply split_scan_skip.
Qed.

Section SplitFacts.

Variable sep : string.
Hypothesis sep_nonempty : sep <> "".
Hypothesis sep_unbordered : unbordered sep.

Lemma split_scan_nonempty (skip : nat) (piece s : string) :
  split_scan sep skip piece s <> [].
Proof.
  revert skip piece. induction s as [|c s IH]; intros skip piece; cbn [split_scan].
  - discriminate.
  - destruct skip; [|apply IH].
    destruct (prefix sep (String c s)); [discriminate | apply IH].
Qed.

Lemma last_cons_nonempty (x : string) (l : list string) :
  l <> [] -> last (x :: l) "" = last l "".
Proof. destruct l; [contradiction | reflexivity]. Qed.

Lemma split_scan_no_sep (piece s : string) :
  contains sep s = false -> split_scan sep 0 piece s = [piece ++ s].
Proof.
  revert piece. induction s as [|c s IH]; intros piece H.
  - simpl. now rewrite append_empty_r.
  - cbn [contains] in H. apply orb_false_iff in H as [Hp Hs].
    cbn [split_scan]. rewrite Hp, (IH _ Hs), append_assoc. reflexivity.
Qed.

Lemma pending_step (k : nat) (c : ascii) (s : string) :
  pending sep (S k) (String c s) -> pending sep k s.
Proof.
  intros [H | (u & t & Hu & Hsep & Hlen & Hpre)]; [discriminate|].
  destruct t as [|a t]; [discriminate|].
  apply prefix_cons in Hpre as [-> Hpre].
  destruct k as [|k]; [now left | right].
  exists (u ++ String c ""), t. repeat split.
  - destruct u; discriminate.
  - now rewrite append_assoc.
  - simpl in Hlen. lia.
  - assumption.
Qed.

Lemma pending_after_match (c : ascii) (s : string) :
  prefix sep (String c s) = true -> pending sep (length sep - 1) s.
Proof.
  intros H. destruct sep as [|a p] eqn:E; [contradiction|].
  apply prefix_cons in H as [-> H].
  simpl. rewrite Nat.sub_0_r.
  destruct p as [|b p]; [now left | right].
  exists (String c ""), (String b p).
  split; [discriminate|]. split; [reflexivity|]. split; [reflexivity | assumption].
Qed.

Lemma split_scan_last (post : string) :
  contains sep post = false ->
  forall pre skip piece,
    pending sep skip (pre ++ sep ++ post) ->
    last (split_scan sep skip piece (pre ++ sep ++ post)) "" = post.
Proof.
  intros Hpost pre. induction pre as [|c pre IH]; intros skip piece Hpend.
  - change ("" ++ sep ++ post) with (sep ++ post) in *.
    destruct skip as [|k].
    + rewrite (split_scan_at_sep _ _ _ sep_nonempty).
      rewrite (split_scan_no_sep _ _ Hpost). reflexivity.
    + destruct Hpend as [H | (u & t & Hu & Hsep & Hlen & Hpre)]; [discriminate|].
      assert (Ht : t <> "") by (destruct t; [discriminate | discriminate]).
      assert (Hshort : length t <= length sep).
      { rewrite Hsep, length_append. lia. }
      pose proof (prefix_short _ _ _ Hpre Hshort) as Hp.
      rewrite (sep_unbordered u t Hu Ht Hsep) in Hp. discriminate.
  - change (String c pre ++ sep ++ post) with (String c (pre ++ sep ++ post)) in *.
    destruct skip as [|k]; cbn [split_scan].
    + destruct (prefix sep (String c (pre ++ sep ++ post))) eqn:Hp.
      * rewrite last_cons_nonempty by apply split_scan_nonempty.
        apply IH. eapply pending_after_match, Hp.
      * apply IH. now left.
    + apply IH. eapply pending_step, Hpend.
Qed.

(** [s.split(sep)[-1]] is the text after the last [sep]. *)
Lemma split_last_item (pre post : string) :
  contains sep post = false ->
  last_item (split sep (pre ++ sep ++ post)) = post.
Proof.
  intros Hpost. unfold last_item, split.
  apply split_scan_last; [assumption | now left].
Qed.

End SplitFacts.

(** Every text that holds [sep] has a last occurrence of it. *)
Lemma last_occurrence (sep s : string) :
  sep <> "" ->
  contains sep s = true ->
  exists pre post, s = pre ++ sep ++ post /\ contains sep post = false.
Proof.
  intros Hne. induction s as [|c s IH]; intros H.
  - cbn [contains] in H. rewrite orb_false_r in H.
    destruct sep; [contradiction | discriminate].
  - destruct (contains sep s) eqn:Hs.
    + destruct (IH eq_refl) as (pre & post & -> & Hpost).
      now exists (String c pre), post.
    + cbn [contains] in H. rewrite Hs, orb_false_r in H.
      apply prefix_iff in H as [r Hr]. exists "", r. split; [exact Hr|].
      destruct sep as [|a p]; [contradiction|].
      simpl in Hr. injection Hr as _ ->.
      eapply contains_false_suffix, Hs.
Qed.

Lemma marker_nonempty : marker <> "".
Proof. discriminate. Qed.

Lemma marker_unbordered : unbordered marker.
Proof.
  intros u t Hu Ht H. unfold marker in H.
  destruct u as [|c u]; [contradiction|].
  simpl in H. injection H as _ H.
  repeat (destruct u as [|? u];
          [ simpl in H; subst t; first [reflexivity | contradiction]
          | simpl in H; first [discriminate H | injection H as _ H] ]).
Qed.

(* ================================================================== *)
(** ** The mock chooser *)

Lemma user_text_exists (prompt : string) :
  exists user_text, is_user_text prompt user_text.
Proof.
  destruct (contains marker prompt) eqn:E.
  - destruct (last_occurrence _ _ marker_nonempty E) as (pre & post & -> & Hpost).
    exists post. right. now exists pre.
  - exists prompt. now left.
Qed.

(** The reply depends on the prompt through its user text only. *)
Lemma chat_of_user_text (prompt user_text : string) :
  is_user_text prompt user_text ->
  MockLLMClient_chat prompt =
    if any_in ["rate"; "inflation"; "monetary"] (lower user_text)
    then action_json "retrieve_and_answer"
    else if any_in ["classify"; "label"; "topic"] (lower user_text)
    then action_json "classify_only"
    else action_json "refuse".
Proof.
  intros [[Hno ->] | (pre & -> & Hpost)]; unfold MockLLMClient_chat.
  - now rewrite Hno.
  - rewrite contains_append.
    now rewrite (split_last_item _ marker_nonempty marker_unbordered _ _ Hpost).
Qed.

(** C4.  For every prompt, [chat] looks at the user text alone (what follows
    the last ["User input: "], or the whole prompt when the marker is
    absent), lower-cased: it answers with the JSON of [retrieve_and_answer]
    when "rate", "inflation" or "monetary" occurs in it, whatever the case
    of the letters; otherwise with the JSON of [classify_only] when
    "classify", "label" or "topic" occurs; otherwise with the JSON of
    [refuse].  Every prompt has such a user text. *)
Theorem chat_selection_rule (prompt : string) :
  (exists user_text, is_user_text prompt user_text)
  /\ forall user_text,
       is_user_text prompt user_text ->
       let retrieve_words := ["rate"; "inflation"; "monetary"] in
       let classify_words := ["classify"; "label"; "topic"] in
       (some_occurs_ci retrieve_words user_text ->
        MockLLMClient_chat prompt = action_json "retrieve_and_answer")
       /\ (~ some_occurs_ci retrieve_words user_text ->
           some_occurs_ci classify_words user_text ->
           MockLLMClient_chat prompt = action_json "classify_only")
       /\ (~ some_occurs_ci retrieve_words user_text ->
           ~ some_occurs_ci classify_words user_text ->
           MockLLMClient_chat prompt = action_json "refuse").
Proof.
  split; [apply user_text_exists|].
  intros user_text Hut retrieve_words classify_words.
  rewrite (chat_of_user_text _ _ Hut). fold retrieve_words classify_words.
  assert (E1 : any_in retrieve_words (lower user_text) = true
               <-> some_occurs_ci retrieve_words user_text)
    by apply (any_in_lower_iff retrieve_words).
  assert (E2 : any_in classify_words (lower user_text) = true
               <-> some_occurs_ci classify_words user_text)
    by apply (any_in_lower_iff classify_words).
  destruct (any_in retrieve_words (lower user_text));
    destruct (any_in classify_words (lower user_text));
    repeat split; intros;
    repeat match goal with
           | H : ~ _, E : true = true <-> _ |- _ =>
               exfalso; apply H, E; reflexivity
           | H : some_occurs_ci ?g _, E : false = true <-> some_occurs_ci ?g _ |- _ =>
               apply E in H; discriminate H
           end;
    reflexivity.
Qed.

Lemma chat_selection_rule_witness :
  MockLLMClient_chat "RATE and Inflation. User input: Please LABEL this"
  = action_json "classify_only".
Proof.
  apply (proj1 (proj2 (proj2 (chat_selection_rule
                                "RATE and Inflation. User input: Please LABEL this")
                             "Please LABEL this"
                             (or_intror (ex_intro _ "RATE and Inflation. "
                                                  (conj eq_refl eq_refl)))))).
  - intros H. apply (any_in_lower_iff ["rate"; "inflation"; "monetary"]) in H.
    vm_compute in H. discriminate H.
  - do 1 apply Exists_cons_tl. apply Exists_cons_hd.
    exists "Please ", "LABEL", " this". split; reflexivity.
Defined.

(** C5, as the claim states it, fails: "rate" in front of the marker does
    not make [chat] answer [retrieve_and_answer]. *)
Lemma chat_keyword_anywhere_refuted :
  ~ (forall prompt,
       some_occurs_ci ["rate"; "inflation"; "monetary"] prompt ->
       MockLLMClient_chat prompt = action_json "retrieve_and_answer").
Proof.
  intros H. specialize (H "rate User input: hello").
  assert (Hocc : some_occurs_ci ["rate"; "inflation"; "monetary"]
                                "rate User input: hello").
  { apply Exists_cons_hd. now exists "", "rate", " User input: hello". }
  specialize (H Hocc). vm_compute in H. discriminate H.
Qed.

(** C5, amended.  For every prompt whose user text (what follows the last
    ["User input: "], or the whole prompt when the marker is absent) holds
    "rate", "inflation" or "monetary" in any mix of upper and lower case,
    [chat] answers with the JSON of [retrieve_and_answer]. *)
Theorem chat_retrieve_on_user_text (prompt user_text : string) :
  is_user_text prompt user_text ->
  some_occurs_ci ["rate"; "inflation"; "monetary"] user_text ->
  MockLLMClient_chat prompt = action_json "retrieve_and_answer".
Proof.
  intros Hut Hocc. rewrite (chat_of_user_text _ _ Hut).
  apply any_in_lower_iff in Hocc. cbn [map lower lower_char] in Hocc.
  change (any_in ["rate"; "inflation"; "monetary"] (lower user_text) = true) in Hocc.
  now rewrite Hocc.
Qed.

Lemma chat_retrieve_on_user_text_witness :
  MockLLMClient_chat "User input: What is the RATE?" = action_json "retrieve_and_answer".
Proof.
  apply (chat_retrieve_on_user_text _ "What is the RATE?").
  - right. exists "". split; reflexivity.
  - apply Exists_cons_hd. exists "What is the ", "RATE", "?". split; reflexivity.
Defined.

(** C10.  When the prompt holds the marker, only what follows its last
    occurrence counts: [chat] answers as it would on that text alone,
    whatever stands before; in particular it answers [refuse] when none of
    the six keywords follows the last marker, also if some stand before. *)
Theorem chat_after_last_marker (before after : string) :
  contains marker after = false ->
  MockLLMClient_chat (before ++ marker ++ after) = MockLLMClient_chat after
  /\ (any_in ["rate"; "inflation"; "monetary"; "classify"; "label"; "topic"]
             (lower after) = false ->
      MockLLMClient_chat (before ++ marker ++ after) = action_json "refuse").
Proof.
  intros Hpost.
  assert (Hb : is_user_text (before ++ marker ++ after) after)
    by (right; now exists before).
  assert (Ha : is_user_text after after) by now left.
  rewrite (chat_of_user_text _ _ Hb), (chat_of_user_text _ _ Ha).
  split; [reflexivity|].
  intros H.
  change (any_in (["rate"; "inflation"; "monetary"]
                  ++ ["classify"; "label"; "topic"])%list (lower after) = false) in H.
  unfold any_in in *. rewrite existsb_app in H.
  apply orb_false_iff in H as [H1 H2]. now rewrite H1, H2.
Qed.

Lemma chat_after_last_marker_witness :
  MockLLMClient_chat ("What is the rate? User input: " ++ marker ++ "hello")
  = action_json "refuse".
Proof.
  apply (proj2 (chat_after_last_marker "What is the rate? User input: " "hello"
                                       eq_refl)).
  reflexivity.
Defined.

(* ================================================================== *)
(** ** The three tools *)

(** C6.  [classify_only] gives the label of the first keyword group, in
    the order group 1, group 2, group 3, of which some keyword occurs in the
    text regardless of case, and "Topic: Out of Domain" when none does; so a
    text with keywords of groups 1 and 2 gets the label of group 1, as
    "central bank raised rates" does. *)
Theorem classify_only_first_group (text : string) :
  let group1 := ["rate"; "inflation"; "monetary"; "central bank"] in
  let group2 := ["loan"; "mortgage"; "lending"; "credit"] in
  let group3 := ["stock"; "equity"; "market"; "earning"] in
  (some_occurs_ci group1 text ->
   classify_only text = "Topic: Interest Rates & Monetary Policy")
  /\ (~ some_occurs_ci group1 text -> some_occurs_ci group2 text ->
      classify_only text = "Topic: Lending & Credit")
  /\ (~ some_occurs_ci group1 text -> ~ some_occurs_ci group2 text ->
      some_occurs_ci group3 text ->
      classify_only text = "Topic: Equity Markets")
  /\ (~ some_occurs_ci group1 text -> ~ some_occurs_ci group2 text ->
      ~ some_occurs_ci group3 text ->
      classify_only text = "Topic: Out of Domain")
  /\ classify_only "central bank raised rates"
     = "Topic: Interest Rates & Monetary Policy".
Proof.
  intros group1 group2 group3.
  assert (E1 : any_in group1 (lower text) = true <-> some_occurs_ci group1 text)
    by apply (any_in_lower_iff group1).
  assert (E2 : any_in group2 (lower text) = true <-> some_occurs_ci group2 text)
    by apply (any_in_lower_iff group2).
  assert (E3 : any_in group3 (lower text) = true <-> some_occurs_ci group3 text)
    by apply (any_in_lower_iff group3).
  unfold classify_only. fold group1 group2 group3.
  destruct (any_in group1 (lower text));
    destruct (any_in group2 (lower text));
    destruct (any_in group3 (lower text));
    repeat split; intros;
    repeat match goal with
           | H : ~ _, E : true = true <-> _ |- _ =>
               exfalso; apply H, E; reflexivity
           | H : some_occurs_ci ?g _, E : false = true <-> some_occurs_ci ?g _ |- _ =>
               apply E in H; discriminate H
           end;
    reflexivity.
Qed.

Lemma classify_only_first_group_witness :
  classify_only "The Central Bank froze every LOAN"
  = "Topic: Interest Rates & Monetary Policy".
Proof.
  apply (proj1 (classify_only_first_group "The Central Bank froze every LOAN")).
  do 3 apply Exists_cons_tl. apply Exists_cons_hd.
  exists "The ", "Central Bank", " froze every LOAN". split; reflexivity.
Defined.

Lemma first_hit_found (items before after : list (string * string))
      (keyword answer question_lower : string) :
  items = (before ++ (keyword, answer) :: after)%list ->
  (forall k a, In (k, a) before -> contains k question_lower = false) ->
  contains keyword question_lower = true ->
  first_hit items question_lower
  = Some ("Based on retrieved documents: " ++ answer).
Proof.
  intros -> Hbefore Hhit.
  induction before as [|[k a] before IH]; cbn [first_hit app].
  - now rewrite Hhit.
  - rewrite (Hbefore k a) by now left.
    apply IH. intros k' a' Hin. apply (Hbefore k' a'). now right.
Qed.

Lemma first_hit_none (items : list (string * string)) (question_lower : string) :
  (forall k a, In (k, a) items -> contains k question_lower = false) ->
  first_hit items question_lower = None.
Proof.
  induction items as [|[k a] items IH]; intros H; cbn [first_hit].
  - reflexivity.
  - rewrite (H k a) by now left.
    apply IH. intros k' a' Hin. apply (H k' a'). now right.
Qed.

Lemma knowledge_base_keys_lower :
  Forall (fun item => lower (fst item) = fst item) KNOWLEDGE_BASE.
Proof. repeat constructor. Qed.

Lemma contains_key_false (k a question : string) :
  In (k, a) KNOWLEDGE_BASE ->
  ~ occurs_ci k question ->
  contains k (lower question) = false.
Proof.
  intros Hin Hno.
  assert (Hk : lower k = k).
  { pose proof knowledge_base_keys_lower as HF.
    rewrite Forall_forall in HF. apply (HF (k, a) Hin). }
  destruct (contains k (lower question)) eqn:E; [|reflexivity].
  rewrite <- Hk in E. now apply contains_lower_iff in E.
Qed.

(** C7.  [retrieve_and_answer] walks the five entries in the order rate,
    inflation, mortgage, loan, monetary, and gives
    "Based on retrieved documents: " followed by the answer of the first
    entry whose keyword occurs in the question regardless of case; when no
    keyword occurs it gives
    "Based on retrieved documents: No relevant information found.".
    "What about mortgage trends?" gets the answer of the mortgage entry. *)
Theorem retrieve_and_answer_first_entry (question : string) :
  (forall before keyword answer after,
      KNOWLEDGE_BASE = (before ++ (keyword, answer) :: after)%list ->
      (forall k a, In (k, a) before -> ~ occurs_ci k question) ->
      occurs_ci keyword question ->
      retrieve_and_answer question = "Based on retrieved documents: " ++ answer)
  /\ ((forall k a, In (k, a) KNOWLEDGE_BASE -> ~ occurs_ci k question) ->
      retrieve_and_answer question
      = "Based on retrieved documents: No relevant information found.")
  /\ map fst KNOWLEDGE_BASE = ["rate"; "inflation"; "mortgage"; "loan"; "monetary"]
  /\ retrieve_and_answer "What about mortgage trends?"
     = "Based on retrieved documents: Mortgage rates reached a two-decade high, causing home sales to decline 15%.".
Proof.
  split; [|split; [|split; reflexivity]].
  - intros before keyword answer after Hkb Hbefore Hhit.
    unfold retrieve_and_answer.
    assert (Hin : forall k a, In (k, a) before -> In (k, a) KNOWLEDGE_BASE).
    { intros k a H. rewrite Hkb. apply in_or_app. now left. }
    assert (Hkey : In (keyword, answer) KNOWLEDGE_BASE).
    { rewrite Hkb. apply in_or_app. right. now left. }
    assert (Hlow : lower keyword = keyword).
    { pose proof knowledge_base_keys_lower as HF.
      rewrite Forall_forall in HF. apply (HF _ Hkey). }
    rewrite (first_hit_found _ before after keyword answer); try assumption.
    + reflexivity.
    + intros k a H. apply (contains_key_false k a); [now apply Hin | now apply (Hbefore k a)].
    + rewrite <- Hlow. now apply contains_lower_iff.
  - intros Hnone. unfold retrieve_and_answer.
    rewrite first_hit_none; [reflexivity|].
    intros k a H. apply (contains_key_false k a _ H). now apply (Hnone k a).
Qed.

Lemma retrieve_and_answer_first_entry_witness :
  retrieve_and_answer "Did INFLATION ease?"
  = "Based on retrieved documents: Inflation remained elevated at 4.2% year-on-year, driven by energy prices.".
Proof.
  apply (proj1 (retrieve_and_answer_first_entry "Did INFLATION ease?")
               [("rate", "The central bank raised interest rates by 25 basis points to combat persistent inflation.")]
               "inflation"
               "Inflation remained elevated at 4.2% year-on-year, driven by energy prices."
               (skipn 2 KNOWLEDGE_BASE)).
  - reflexivity.
  - intros k a [H | []]. injection H as <- _.
    intros Hocc. apply contains_lower_iff in Hocc. vm_compute in Hocc. discriminate Hocc.
  - exists "Did ", "INFLATION", " ease?". split; reflexivity.
Defined.

(** C8.  [refuse()] takes no argument and always returns
    "Refused: I am not authorised to act on this request."; two calls give
    the same text. *)
Theorem refuse_fixed_text :
  refuse tt = "Refused: I am not authorised to act on this request."
  /\ forall call1 call2 : unit, refuse call1 = refuse call2.
Proof. split; [reflexivity | intros [] []; reflexivity]. Qed.

(* ================================================================== *)
(** ** The decoder consumes its input and never exhausts its budget *)

Module json_facts.
Import json.

Lemma skip_ws_length (s : string) : length (skip_ws s) <= length s.
Proof.
  induction s as [|c s IH]; simpl; [lia|].
  destruct (is_ws c); simpl; lia.
Qed.

Lemma skip_ws_eq_length (s r : string) :
  skip_ws s = r -> length r <= length s.
Proof. intros <-. apply skip_ws_length. Qed.

Lemma prepend_some (c : N) (o : option (ustr * string)) (u : ustr) (r : string) :
  prepend c o = Some (u, r) -> exists u', o = Some (u', r).
Proof.
  destruct o as [[u' r']|]; simpl; [|discriminate].
  intros H. injection H as _ ->. now exists u'.
Qed.

(** Destructs, one after the other, what the matches of [H] inspect. *)
Ltac break_matches H :=
  repeat match type of H with
         | context [match ?x with _ => _ end] =>
             destruct x eqn:?; try discriminate H
         end.

Lemma scanstring_length_bounded (n : nat) :
  forall s u r,
    length s <= n -> scanstring s = Some (u, r) -> length r < length s.
Proof.
  induction n as [|n IH]; intros s u r Hn H.
  - destruct s; [discriminate | simpl in Hn; lia].
  - destruct s as [|c rest]; [discriminate|].
    cbn [scanstring] in H. cbn [length] in Hn |- *. break_matches H;
      try (injection H as _ <-; cbn [length]; lia);
      apply prepend_some in H as [u' H];
      apply IH in H; cbn [length] in *; lia.
Qed.

Lemma scanstring_length (s : string) (u : ustr) (r : string) :
  scanstring s = Some (u, r) -> length r < length s.
Proof. apply (scanstring_length_bounded (length s)). lia. Qed.

Lemma span_digits_length (s ds r : string) :
  span_digits s = (ds, r) -> length ds + length r = length s.
Proof.
  revert ds r. induction s as [|c s IH]; intros ds r H; simpl in H.
  - now injection H as <- <-.
  - destruct (is_digit c).
    + destruct (span_digits s) as [ds' r'] eqn:E.
      injection H as <- <-. specialize (IH _ _ eq_refl). simpl. lia.
    + injection H as <- <-. reflexivity.
Qed.

Lemma span_digits_rest (s ds r : string) :
  span_digits s = (ds, r) -> length r <= length s.
Proof. intros H. apply span_digits_length in H. lia. Qed.

Lemma optional_minus_length (s sign r : string) :
  optional_minus s = (sign, r) -> length r <= length s.
Proof.
  destruct s as [|c s]; simpl; intros H.
  - now injection H as _ <-.
  - destruct (N_of_ascii c =? 45)%N; injection H as _ <-; simpl; lia.
Qed.

Lemma integer_part_length (s digits r : string) :
  integer_part s = Some (digits, r) -> length r < length s.
Proof.
  destruct s as [|c s]; [discriminate|]. unfold integer_part.
  destruct (is_digit c) eqn:Hd; [|discriminate].
  destruct (N_of_ascii c =? 48)%N; intros H.
  - injection H as _ <-. simpl. lia.
  - injection H as H. simpl in H. rewrite Hd in H.
    destruct (span_digits s) as [ds r'] eqn:E. injection H as _ <-.
    apply span_digits_rest in E. simpl. lia.
Qed.

Lemma fraction_part_length (s frac r : string) :
  fraction_part s = (frac, r) -> length r <= length s.
Proof.
  destruct s as [|c s]; simpl; intros H.
  - now injection H as _ <-.
  - destruct (N_of_ascii c =? 46)%N.
    + destruct (span_digits s) as [[|d ds] r'] eqn:E; injection H as _ <-.
      * simpl. lia.
      * apply span_digits_rest in E. simpl. lia.
    + injection H as _ <-. simpl. lia.
Qed.

Lemma optional_sign_length (s sign r : string) :
  optional_sign s = (sign, r) -> length r <= length s.
Proof.
  destruct s as [|c s]; simpl; intros H.
  - now injection H as _ <-.
  - destruct (_ || _); injection H as _ <-; simpl; lia.
Qed.

Lemma exponent_part_length (s exp r : string) :
  exponent_part s = (exp, r) -> length r <= length s.
Proof.
  destruct s as [|c s]; simpl; intros H.
  - now injection H as _ <-.
  - destruct (_ || _).
    + destruct (optional_sign s) as [sign r1] eqn:E1.
      apply optional_sign_length in E1.
      destruct (span_digits r1) as [[|d ds] r2] eqn:E2; injection H as _ <-.
      * simpl. lia.
      * apply span_digits_rest in E2. simpl. lia.
    + injection H as _ <-. simpl. lia.
Qed.

Lemma match_number_length (s : string) (n : numeral) (r : string) :
  match_number s = Some (n, r) -> length r < length s.
Proof.
  unfold match_number.
  destruct (optional_minus s) as [sign s1] eqn:E1.
  destruct (integer_part s1) as [[integer s2]|] eqn:E2; [|discriminate].
  destruct (fraction_part s2) as [frac s3] eqn:E3.
  destruct (exponent_part s3) as [exp s4] eqn:E4.
  apply optional_minus_length in E1. apply integer_part_length in E2.
  apply fraction_part_length in E3. apply exponent_part_length in E4.
  intros H. assert (r = s4) as -> by (destruct frac, exp; now injection H).
  lia.
Qed.

Lemma parse_int_raises (py : interpreter) (sign digits : string) (e : exn) :
  parse_int py sign digits = Raises e -> e = ValueError.
Proof.
  unfold parse_int. destruct (_ && _)%bool; [|discriminate].
  intros H. now injection H as <-.
Qed.

Lemma after_word_length (word s r : string) :
  after_word word s = Some r -> length s = length word + length r.
Proof.
  revert s. induction word as [|a word IH]; intros s H.
  - destruct s; injection H as <-; reflexivity.
  - destruct s as [|b s]; [discriminate|]. simpl in H.
    destruct (a =? b)%char; [|discriminate].
    apply IH in H. simpl. lia.
Qed.

Section Scanning.

Variable py : interpreter.

Lemma scan_constant_length (s : string) (v : value) (r : string) :
  scan_constant py s = Scanned v r -> length r < length s.
Proof.
  unfold scan_constant. intros H. break_matches H;
    injection H as _ <-;
    repeat match goal with
           | E : after_word _ _ = Some _ |- _ => apply after_word_length in E
           | E : match_number _ = Some _ |- _ => apply match_number_length in E
           end;
    simpl in *; lia.
Qed.

Lemma scan_constant_not_exhausted (s : string) : scan_constant py s <> Exhausted.
Proof. unfold scan_constant. intros H. break_matches H. Qed.

Lemma scan_constant_failed (s : string) (e : exn) :
  scan_constant py s = Failed e -> e = ValueError.
Proof.
  unfold scan_constant. intros H. break_matches H.
  injection H as <-. eapply parse_int_raises. eassumption.
Qed.

(** Turns what is known about the scanning calls into facts on lengths. *)
Ltac length_facts :=
  repeat match goal with
         | E : skip_ws _ = _ |- _ => apply skip_ws_eq_length in E
         | E : scanstring _ = Some _ |- _ => apply scanstring_length in E
         | E : scan_constant _ _ = Scanned _ _ |- _ => apply scan_constant_length in E
         | E : Scanned _ _ = Scanned _ _ |- _ => injection E as ? ?; subst
         end.

Ltac ws_facts :=
  repeat match goal with
         | H : context [length (skip_ws ?x)] |- _ =>
             lazymatch goal with
             | _ : length (skip_ws x) <= length x |- _ => fail
             | _ => pose proof (skip_ws_length x)
             end
         | |- context [length (skip_ws ?x)] =>
             lazymatch goal with
             | _ : length (skip_ws x) <= length x |- _ => fail
             | _ => pose proof (skip_ws_length x)
             end
         end.

(** Every scanning call that succeeds has consumed some of its input. *)
Lemma scanning_consumes (budget : nat) :
  (forall room s v r,
      scan_once py budget room s = Scanned v r -> length r < length s)
  /\ (forall room items s v r,
        array_items py budget room items s = Scanned v r -> length r < length s)
  /\ (forall room items s v r,
        object_items py budget room items s = Scanned v r -> length r < length s).
Proof.
  induction budget as [|b (IH1 & IH2 & IH3)]; [repeat split; discriminate|].
  repeat split.
  - intros room s v r H. cbn [scan_once] in H. break_matches H; length_facts;
      repeat match goal with
             | E : array_items _ b _ _ _ = Scanned _ _ |- _ => apply IH2 in E
             | E : object_items _ b _ _ _ = Scanned _ _ |- _ => apply IH3 in E
             end;
      ws_facts; simpl in *; lia.
  - intros room items s v r H. cbn [array_items] in H. break_matches H; length_facts;
      repeat match goal with
             | E : scan_once _ b _ _ = Scanned _ _ |- _ => apply IH1 in E
             | E : array_items _ b _ _ _ = Scanned _ _ |- _ => apply IH2 in E
             end;
      ws_facts; simpl in *; lia.
  - intros room items s v r H. cbn [object_items] in H. break_matches H; length_facts;
      repeat match goal with
             | E : scan_once _ b _ _ = Scanned _ _ |- _ => apply IH1 in E
             | E : object_items _ b _ _ _ = Scanned _ _ |- _ => apply IH3 in E
             end;
      ws_facts; simpl in *; lia.
Qed.

Lemma scan_once_length (budget room : nat) (s : string) (v : value) (r : string) :
  scan_once py budget room s = Scanned v r -> length r < length s.
Proof. apply scanning_consumes. Qed.

(** A budget of two calls for each character, and one more, is never
    used up. *)
Lemma scanning_budget (budget : nat) :
  (forall room s,
      2 * length s + 1 <= budget -> scan_once py budget room s <> Exhausted)
  /\ (forall room items s,
        2 * length s + 2 <= budget ->
        array_items py budget room items s <> Exhausted)
  /\ (forall room items s,
        2 * length s + 2 <= budget ->
        object_items py budget room items s <> Exhausted).
Proof.
  induction budget as [|b (IH1 & IH2 & IH3)]; [repeat split; intros; lia|].
  repeat split.
  - intros room s Hb H. cbn [scan_once] in H. break_matches H; length_facts;
      try (now apply scan_constant_not_exhausted in H);
      first [ apply IH2 in H | apply IH3 in H ]; ws_facts; simpl in *; lia.
  - intros room items s Hb H. cbn [array_items] in H. break_matches H; length_facts;
      repeat match goal with
             | E : scan_once _ b _ _ = Scanned _ _ |- _ => apply scan_once_length in E
             end;
      first [ apply IH2 in H
            | match goal with
              | E : scan_once _ b _ _ = Exhausted |- _ => apply IH1 in E
              end ];
      ws_facts; simpl in *; lia.
  - intros room items s Hb H. cbn [object_items] in H. break_matches H; length_facts;
      repeat match goal with
             | E : scan_once _ b _ _ = Scanned _ _ |- _ => apply scan_once_length in E
             end;
      first [ apply IH3 in H
            | match goal with
              | E : scan_once _ b _ _ = Exhausted |- _ => apply IH1 in E
              end ];
      ws_facts; simpl in *; lia.
Qed.

(** The scanner fails with no exception but [RecursionError] and
    [ValueError]. *)
Lemma scanning_failures (budget : nat) :
  (forall room s e,
      scan_once py budget room s = Failed e ->
      e = RecursionError \/ e = ValueError)
  /\ (forall room items s e,
        array_items py budget room items s = Failed e ->
        e = RecursionError \/ e = ValueError)
  /\ (forall room items s e,
        object_items py budget room items s = Failed e ->
        e = RecursionError \/ e = ValueError).
Proof.
  induction budget as [|b (IH1 & IH2 & IH3)]; [repeat split; discriminate|].
  repeat split.
  - intros room s e H. cbn [scan_once] in H. break_matches H;
      first [ injection H as <-; now left
            | apply scan_constant_failed in H; now right
            | eapply IH2; eassumption
            | eapply IH3; eassumption ].
  - intros room items s e H. cbn [array_items] in H. break_matches H;
      first [ injection H as <-; eapply IH1; eassumption
            | eapply IH2; eassumption ].
  - intros room items s e H. cbn [object_items] in H. break_matches H;
      first [ injection H as <-; eapply IH1; eassumption
            | eapply IH3; eassumption ].
Qed.

(** [loads_in] returns a value or raises [JSONDecodeError],
    [RecursionError] or [ValueError], nothing else; the budget of calls is
    never what stops it. *)
Lemma loads_in_outcomes (s : string) :
  (exists v, loads_in py s = Returns v)
  \/ loads_in py s = Raises JSONDecodeError
  \/ loads_in py s = Raises RecursionError
  \/ loads_in py s = Raises ValueError.
Proof.
  unfold loads_in.
  destruct (scan_once py (2 * length s + 1) (recursion_room py) (skip_ws s))
    as [v rest| |e|] eqn:E.
  - destruct (skip_ws rest); [left; now exists v | now right; left].
  - now right; left.
  - apply scanning_failures in E as [-> | ->]; [now right; right; left | now right; right; right].
  - exfalso. revert E. apply scanning_budget.
    pose proof (skip_ws_length s). lia.
Qed.

(** Whatever room the interpreter has, more opening brackets than it
    allows make the scanner fail with [RecursionError]. *)
Lemma scan_once_too_deep (room : nat) :
  forall budget n,
    2 * room + 1 <= budget -> room < n ->
    scan_once py budget room (times "[" n) = Failed RecursionError.
Proof.
  induction room as [|r IH]; intros budget n Hb Hn.
  - destruct budget as [|b]; [lia|]. destruct n as [|n]; [lia | reflexivity].
  - destruct budget as [|[|b]]; try lia.
    destruct n as [|[|n]]; try lia.
    change (times "[" (S (S n))) with (String "[" (times "[" (S n))).
    cbn [scan_once]. change (N_of_ascii "[" =? 34)%N with false.
    change (N_of_ascii "[" =? 123)%N with false.
    change (N_of_ascii "[" =? 91)%N with true. cbn match.
    change (times "[" (S n)) with (String "[" (times "[" n)) at 1.
    cbn [skip_ws]. change (is_ws "[") with false. cbn match.
    change (N_of_ascii "[" =? 93)%N with false. cbn match.
    change (String "[" (times "[" n)) with (times "[" (S n)).
    cbn [array_items]. rewrite IH by lia. reflexivity.
Qed.

Lemma length_times_char (c : ascii) (n : nat) :
  length (times (String c "") n) = n.
Proof. induction n as [|n IH]; simpl; [reflexivity | now rewrite IH]. Qed.

Lemma skip_ws_times_bracket (n : nat) : skip_ws (times "[" n) = times "[" n.
Proof. destruct n; reflexivity. Qed.

Lemma loads_in_too_deep (n : nat) :
  recursion_room py < n ->
  loads_in py (times "[" n) = Raises RecursionError.
Proof.
  intros Hn. unfold loads_in. rewrite skip_ws_times_bracket.
  rewrite scan_once_too_deep; [reflexivity | | assumption].
  rewrite length_times_char. lia.
Qed.

Lemma span_digits_ones (n : nat) : span_digits (times "1" n) = (times "1" n, "").
Proof.
  induction n as [|n IH]; [reflexivity|].
  change (times "1" (S n)) with (String "1" (times "1" n)).
  cbn [span_digits]. change (is_digit "1") with true. cbn match.
  now rewrite IH.
Qed.

(** Whatever limit on digits is on, an integer with more digits than it
    allows makes [loads_in] raise [ValueError]. *)
Lemma loads_in_too_long (n : nat) :
  0 < int_max_str_digits py ->
  int_max_str_digits py < n ->
  loads_in py (times "1" n) = Raises ValueError.
Proof.
  intros Hon Hn. unfold loads_in.
  set (limit := int_max_str_digits py) in *.
  destruct n as [|n]; [lia|].
  assert (Hnum : match_number (times "1" (S n))
                 = Some (IntNumeral "" (times "1" (S n)), "")).
  { unfold match_number.
    change (times "1" (S n)) with (String "1" (times "1" n)) at 1.
    cbn [optional_minus]. change (N_of_ascii "1" =? 45)%N with false. cbn match.
    cbn [integer_part]. change (is_digit "1") with true.
    change (N_of_ascii "1" =? 48)%N with false. cbn match.
    change (String "1" (times "1" n)) with (times "1" (S n)).
    rewrite span_digits_ones. reflexivity. }
  assert (Hint : parse_int py "" (times "1" (S n)) = Raises ValueError).
  { unfold parse_int. fold limit. rewrite length_times_char.
    replace (0 <? limit)%nat with true by (symmetry; now apply Nat.ltb_lt).
    replace (limit <? S n)%nat with true by (symmetry; apply Nat.ltb_lt; lia).
    reflexivity. }
  assert (Hconst : scan_constant py (times "1" (S n)) = Failed ValueError).
  { unfold scan_constant. rewrite Hnum, Hint.
    change (times "1" (S n)) with (String "1" (times "1" n)).
    reflexivity. }
  change (skip_ws (times "1" (S n))) with (times "1" (S n)).
  destruct (2 * length (times "1" (S n)) + 1) as [|b] eqn:Hb; [lia|].
  change (times "1" (S n)) with (String "1" (times "1" n)) at 1.
  cbn [scan_once]. change (N_of_ascii "1" =? 34)%N with false.
  change (N_of_ascii "1" =? 123)%N with false.
  change (N_of_ascii "1" =? 91)%N with false. cbn match.
  change (String "1" (times "1" n)) with (times "1" (S n)).
  now rewrite Hconst.
Qed.

End Scanning.

End json_facts.

(* ================================================================== *)
(** ** The decision function *)

Lemma ustr_eqb_eq (u1 u2 : ustr) : ustr_eqb u1 u2 = true <-> u1 = u2.
Proof.
  unfold ustr_eqb. destruct (list_eq_dec N.eq_dec u1 u2); split;
    congruence.
Qed.

(** Where [set_contains] says yes, the candidate is one of the members. *)
Lemma set_contains_true (members : list string) (v : value) :
  set_contains members v = Returns true ->
  exists m, In m members /\ v = str m.
Proof.
  unfold set_contains. destruct (hashable v); [|discriminate].
  intros H. injection H as H. destruct v; try discriminate.
  apply existsb_exists in H as (m & Hin & Heq).
  apply ustr_eqb_eq in Heq. exists m. now subst.
Qed.

Lemma set_contains_hashable (members : list string) (v : value) :
  hashable v = true -> exists b, set_contains members v = Returns b.
Proof. unfold set_contains. intros ->. eauto. Qed.

(** The [try] block returns, or raises one of the two exceptions that the
    [except] clause names, or lets through a [RecursionError] or a
    [ValueError] of [json.loads]. *)
Lemma parse_action_outcomes (raw : string) :
  (exists v, parse_action raw = Returns v)
  \/ parse_action raw = Raises JSONDecodeError
  \/ parse_action raw = Raises AttributeError
  \/ (exists e, (e = RecursionError \/ e = ValueError)
                /\ json.loads raw = Raises e /\ parse_action raw = Raises e).
Proof.
  unfold parse_action.
  destruct (json_facts.loads_in_outcomes cpython raw)
    as [[v H] | [H | [H | H]]]; fold (json.loads raw) in H; rewrite H; simpl.
  - destruct v; simpl; eauto.
  - now right; left.
  - right; right; right. exists RecursionError. auto.
  - right; right; right. exists ValueError. auto.
Qed.

(** [decide_action] returns an allowed action, or raises [TypeError] (the
    reply's "action" is a list or a dict), or lets through a
    [RecursionError] or a [ValueError] of [json.loads]. *)
Lemma decide_action_outcomes (client : llm_client) (user_input : string) :
  (exists a, In a ALLOWED_ACTIONS
             /\ decide_action client user_input = Returns (str a))
  \/ (decide_action client user_input = Raises TypeError
      /\ exists v, parse_action (chat client (build_prompt user_input)) = Returns v
                   /\ hashable v = false)
  \/ (exists e, (e = RecursionError \/ e = ValueError)
                /\ json.loads (chat client (build_prompt user_input)) = Raises e
                /\ decide_action client user_input = Raises e).
Proof.
  unfold decide_action.
  destruct (parse_action_outcomes (chat client (build_prompt user_input)))
    as [[v ->] | [-> | [-> | (e & He & Hl & ->)]]];
    cbn [try_except existsb exn_eqb orb bind].
  - destruct (hashable v) eqn:Hh.
    + left. destruct (set_contains_hashable ALLOWED_ACTIONS v Hh) as [[|] Hb];
        rewrite Hb; cbn [bind negb].
      * apply set_contains_true in Hb as (m & Hin & ->). now exists m.
      * exists "refuse". split; [now right; right; left | reflexivity].
    + right; left. unfold set_contains. rewrite Hh. split; [reflexivity | now exists v].
  - left. exists "refuse". split; [now right; right; left | reflexivity].
  - left. exists "refuse". split; [now right; right; left | reflexivity].
  - right; right. exists e. split; [assumption|]. split; [assumption|].
    destruct He as [-> | ->]; reflexivity.
Qed.

(** C1.  The claim fails on the code: a reply whose "action" is a JSON
    array is decoded to a list, and the membership test on the set of
    allowed actions raises [TypeError], which no [except] clause catches. *)
Theorem decide_action_raises_on_list_action (user_input : string) :
  decide_action (constant_client ("{" ++ quoted "action" ++ ": []}")) user_input
  = Raises TypeError.
Proof. reflexivity. Qed.

(** C2.  The claim fails on the code.  A reply of 1000 opening brackets is
    not JSON, and a reply of 4301 digits is JSON for a number, not for an
    object; [json.loads] raises [RecursionError] on the first and
    [ValueError] on the second, the [except] clause names neither, and
    [decide_action] raises instead of returning "refuse". *)
Theorem decide_action_raises_on_deep_or_long_reply (user_input : string) :
  decide_action (constant_client (times "[" 1000)) user_input
  = Raises RecursionError
  /\ decide_action (constant_client (times "1" 4301)) user_input
     = Raises ValueError.
Proof.
  unfold decide_action, parse_action, json.loads.
  cbn [chat constant_client]. split.
  - rewrite json_facts.loads_in_too_deep; [reflexivity|].
    cbn [recursion_room cpython]. apply Nat.ltb_lt. reflexivity.
  - rewrite json_facts.loads_in_too_long; [reflexivity | |];
      cbn [int_max_str_digits cpython]; apply Nat.ltb_lt; reflexivity.
Qed.

(** X14.  What does hold of C2: when [json.loads] raises [JSONDecodeError]
    on the chooser's reply, or returns something other than a dict, or a
    dict without "action", [decide_action] returns "refuse". *)
Theorem decide_action_refuses_unparsed (client : llm_client) (user_input : string) :
  let raw := chat client (build_prompt user_input) in
  json.loads raw = Raises JSONDecodeError
  \/ (exists v, json.loads raw = Returns v /\ forall items, v <> VDict items)
  \/ (exists items, json.loads raw = Returns (VDict items)
                    /\ dict_lookup items (text "action") = None) ->
  decide_action client user_input = Returns (str "refuse").
Proof.
  intros raw H. unfold decide_action, parse_action. fold raw.
  destruct H as [-> | [(v & -> & Hv) | (items & -> & Hnone)]].
  - reflexivity.
  - destruct v; try reflexivity. now destruct (Hv items).
  - cbn [bind get]. rewrite Hnone. reflexivity.
Qed.

Lemma decide_action_refuses_unparsed_witness :
  decide_action (constant_client "not json") "What is the rate?"
  = Returns (str "refuse").
Proof.
  apply (decide_action_refuses_unparsed (constant_client "not json")).
  left. reflexivity.
Defined.

(** X3.  What does hold of C3: when the reply decodes to an object whose
    "action" can be hashed (text, number, boolean, null) and is no allowed
    action, [decide_action] returns "refuse". *)
Lemma decide_action_refuses_hashable (client : llm_client) (user_input : string)
      (items : list (ustr * value)) (v : value) :
  json.loads (chat client (build_prompt user_input)) = Returns (VDict items) ->
  dict_lookup items (text "action") = Some v ->
  hashable v = true ->
  (forall a, In a ALLOWED_ACTIONS -> v <> str a) ->
  decide_action client user_input = Returns (str "refuse").
Proof.
  intros Hload Hget Hh Hnot. unfold decide_action, parse_action.
  rewrite Hload. cbn [bind get try_except]. rewrite Hget.
  destruct (set_contains_hashable ALLOWED_ACTIONS v Hh) as [[|] Hb]; rewrite Hb.
  - apply set_contains_true in Hb as (m & Hin & ->). now destruct (Hnot m Hin).
  - reflexivity.
Qed.

(** C3.  The claim fails on the code: here "action" is a JSON object, so
    not an allowed action, yet [decide_action] raises [TypeError] instead
    of returning "refuse". *)
Theorem decide_action_raises_on_dict_action (user_input : string) :
  let reply := "{" ++ quoted "action" ++ ": {}}" in
  parse_action reply = Returns (VDict [])
  /\ decide_action (constant_client reply) user_input = Raises TypeError.
Proof. split; reflexivity. Qed.

(** The fixed part of the prompt never changes what the mock chooser picks. *)
Lemma chat_build_prompt (user_input : string) :
  MockLLMClient_chat (build_prompt user_input) = MockLLMClient_chat user_input.
Proof.
  pose (template :=
         "Choose exactly one action: retrieve_and_answer, classify_only, refuse"
         ++ newline
         ++ "Return ONLY valid JSON: {" ++ quoted "action" ++ ": "
         ++ quoted "<action>" ++ "}" ++ newline).
  change (build_prompt user_input) with (template ++ marker ++ user_input).
  destruct (contains marker user_input) eqn:E.
  - destruct (last_occurrence _ _ marker_nonempty E) as (pre & post & -> & Hpost).
    rewrite (chat_of_user_text (template ++ marker ++ pre ++ marker ++ post) post).
    + rewrite (chat_of_user_text (pre ++ marker ++ post) post); [reflexivity|].
      right. now exists pre.
    + right. exists (template ++ marker ++ pre). split; [|assumption].
      now rewrite !append_assoc.
  - rewrite (chat_of_user_text (template ++ marker ++ user_input) user_input).
    + rewrite (chat_of_user_text user_input user_input); [reflexivity | now left].
    + right. now exists template.
Qed.

Lemma chat_replies (prompt : string) :
  exists a, In a ALLOWED_ACTIONS /\ MockLLMClient_chat prompt = action_json a.
Proof.
  unfold MockLLMClient_chat.
  destruct (any_in ["rate"; "inflation"; "monetary"] _);
    [|destruct (any_in ["classify"; "label"; "topic"] _)];
    eexists; (split; [|reflexivity]); simpl; auto.
Qed.

(** C9.  [MockLLMClient.chat] only ever gives one of three replies, each
    the JSON of an object whose "action" is an allowed action.  So with
    this chooser the [try] block of [decide_action] returns, the action it
    reads is allowed, and [decide_action] returns that action, the one
    the keyword rule picks for the user input. *)
Theorem mock_client_never_falls_back :
  (forall prompt,
      In (MockLLMClient_chat prompt) (map action_json ALLOWED_ACTIONS))
  /\ Forall (fun a => json.loads (action_json a)
                      = Returns (VDict [(text "action", str a)]))
            ALLOWED_ACTIONS
  /\ (forall user_input,
        exists a,
          In a ALLOWED_ACTIONS
          /\ MockLLMClient_chat user_input = action_json a
          /\ chat MockLLMClient (build_prompt user_input) = action_json a
          /\ parse_action (action_json a) = Returns (str a)
          /\ set_contains ALLOWED_ACTIONS (str a) = Returns true
          /\ decide_action MockLLMClient user_input = Returns (str a)).
Proof.
  split; [|split].
  - intros prompt. destruct (chat_replies prompt) as (a & Hin & ->).
    now apply in_map.
  - repeat constructor.
  - intros user_input.
    destruct (chat_replies user_input) as (a & Hin & Ha).
    exists a. split; [assumption|]. split; [assumption|].
    assert (Hreply : chat MockLLMClient (build_prompt user_input) = action_json a).
    { cbn [chat MockLLMClient]. now rewrite chat_build_prompt. }
    split; [assumption|].
    unfold decide_action. rewrite Hreply.
    destruct Hin as [<- | [<- | [<- | []]]]; repeat split; reflexivity.
Qed.

(* ================================================================== *)
(** ** Further properties: helper facts *)

Lemma length_lower (s : string) : length (lower s) = length s.
Proof. induction s as [|c s IH]; simpl; [reflexivity | now rewrite IH]. Qed.

Lemma lower_char_idempotent (c : ascii) : lower_char (lower_char c) = lower_char c.
Proof. destruct c as [[] [] [] [] [] [] [] []]; reflexivity. Qed.

Lemma lower_idempotent (s : string) : lower (lower s) = lower s.
Proof.
  induction s as [|c s IH]; simpl; [reflexivity|].
  now rewrite lower_char_idempotent, IH.
Qed.

Lemma contains_short (kw s : string) :
  length s < length kw -> contains kw s = false.
Proof.
  intros Hlen. destruct (contains kw s) eqn:E; [|reflexivity].
  apply contains_iff in E as (a & b & ->).
  rewrite !length_append in Hlen. lia.
Qed.

(** An occurrence in a part of a text is an occurrence in the text. *)
Lemma contains_inside (kw a t b : string) :
  contains kw t = true -> contains kw (a ++ t ++ b) = true.
Proof.
  intros H. apply contains_iff in H as (x & y & ->).
  apply contains_iff. exists (a ++ x), (y ++ b).
  now rewrite !append_assoc.
Qed.

Lemma any_in_exists (kws : list string) (s : string) :
  any_in kws s = true <-> exists kw, In kw kws /\ contains kw s = true.
Proof. unfold any_in. apply existsb_exists. Qed.

Lemma any_in_inside (kws : list string) (a t b : string) :
  any_in kws t = true -> any_in kws (a ++ t ++ b) = true.
Proof.
  rewrite !any_in_exists. intros (kw & Hin & H).
  exists kw. split; [assumption | now apply contains_inside].
Qed.

Lemma any_in_incl (kws kws' : list string) (s : string) :
  incl kws kws' -> any_in kws s = true -> any_in kws' s = true.
Proof.
  rewrite !any_in_exists. intros Hincl (kw & Hin & H).
  exists kw. split; [now apply Hincl | assumption].
Qed.

(** The lower-cased user text is a part of the lower-cased prompt. *)
Lemma user_text_inside (prompt user_text : string) :
  is_user_text prompt user_text ->
  exists a, lower prompt = a ++ lower user_text ++ "".
Proof.
  intros [[_ ->] | (before & -> & _)].
  - exists "". now rewrite append_empty_r.
  - exists (lower before ++ lower marker).
    now rewrite !lower_append, append_empty_r, append_assoc.
Qed.

Lemma first_hit_some (items : list (string * string)) (k ql : string) :
  In k (map fst items) ->
  contains k ql = true ->
  exists k' a',
    In (k', a') items /\ contains k' ql = true
    /\ first_hit items ql = Some ("Based on retrieved documents: " ++ a').
Proof.
  induction items as [|[k0 a0] items IH]; intros Hin Hk; [destruct Hin|].
  cbn [first_hit]. destruct (contains k0 ql) eqn:E.
  - exists k0, a0. repeat split; [now left | assumption].
  - destruct Hin as [<- | Hin]; [simpl in Hk; congruence|].
    destruct (IH Hin Hk) as (k' & a' & H1 & H2 & H3).
    exists k', a'. repeat split; [now right | assumption | assumption].
Qed.

Lemma first_hit_sound (items : list (string * string)) (ql grounded : string) :
  first_hit items ql = Some grounded ->
  exists k a,
    In (k, a) items /\ contains k ql = true
    /\ grounded = "Based on retrieved documents: " ++ a.
Proof.
  induction items as [|[k0 a0] items IH]; cbn [first_hit]; [discriminate|].
  destruct (contains k0 ql) eqn:E; intros H.
  - injection H as <-. exists k0, a0. repeat split; [now left | assumption].
  - destruct (IH H) as (k & a & H1 & H2 & H3).
    exists k, a. repeat split; [now right | assumption | assumption].
Qed.

Lemma N_of_ascii_injective (a b : ascii) : N_of_ascii a = N_of_ascii b -> a = b.
Proof.
  intros H. rewrite <- (ascii_N_embedding a), <- (ascii_N_embedding b).
  now rewrite H.
Qed.

Lemma text_injective (a b : string) : text a = text b -> a = b.
Proof.
  revert b. induction a as [|x a IH]; intros [|y b] H; try discriminate.
  - reflexivity.
  - unfold text in H. simpl in H. injection H as Hc H.
    apply N_of_ascii_injective in Hc as ->. f_equal. now apply IH.
Qed.

Lemma ustr_eqb_text (a b : string) : ustr_eqb (text a) (text b) = (a =? b)%string.
Proof.
  destruct (String.eqb_spec a b) as [-> | Hne].
  - now apply ustr_eqb_eq.
  - destruct (ustr_eqb (text a) (text b)) eqn:E; [|reflexivity].
    apply ustr_eqb_eq, text_injective in E. contradiction.
Qed.

Lemma set_contains_str (members : list string) (a : string) :
  set_contains members (str a) = Returns (existsb (String.eqb a) members).
Proof.
  unfold set_contains, str. cbn [hashable]. f_equal.
  induction members as [|m members IH]; simpl; [reflexivity|].
  now rewrite ustr_eqb_text, IH.
Qed.

(** A plain text between quotes is decoded to itself. *)
Lemma scanstring_plain (a rest : string) :
  plain a = true ->
  json.scanstring (a ++ String dquote rest) = Some (text a, rest).
Proof.
  induction a as [|c a IH]; intros Hp.
  - reflexivity.
  - cbn [plain] in Hp. apply andb_true_iff in Hp as [Hc Hp].
    unfold plain_char in Hc.
    apply andb_true_iff in Hc as [Hc H92]. apply andb_true_iff in Hc as [H32 H34].
    apply negb_true_iff in H34, H92. apply N.leb_le in H32.
    change (String c a ++ String dquote rest) with (String c (a ++ String dquote rest)).
    cbn [json.scanstring]. rewrite H34, H92.
    replace (N_of_ascii c <? 32)%N with false by (symmetry; apply N.ltb_ge; assumption).
    rewrite (IH Hp). reflexivity.
Qed.

(* ================================================================== *)
(** ** Further properties of the decision function *)

(** X1.  Every value that [decide_action] returns is one of the allowed
    actions.  It raises [TypeError] exactly when the "action" read from the
    reply is a list or a dict.  Any other exception it raises is a
    [RecursionError] or a [ValueError] that [json.loads] raised on the
    reply, and each of these two does come through. *)
Theorem decide_action_result (client : llm_client) (user_input : string) :
  let raw := chat client (build_prompt user_input) in
  (forall v, decide_action client user_input = Returns v ->
             exists a, In a ALLOWED_ACTIONS /\ v = str a)
  /\ (decide_action client user_input = Raises TypeError
      <-> exists v, parse_action raw = Returns v /\ hashable v = false)
  /\ (forall e, decide_action client user_input = Raises e ->
                e = TypeError
                \/ ((e = RecursionError \/ e = ValueError)
                    /\ json.loads raw = Raises e))
  /\ (forall e, e = RecursionError \/ e = ValueError ->
                json.loads raw = Raises e ->
                decide_action client user_input = Raises e).
Proof.
  intros raw. subst raw.
  set (raw := chat client (build_prompt user_input)).
  assert (Hthrough : forall e, e = RecursionError \/ e = ValueError ->
                               json.loads raw = Raises e ->
                               decide_action client user_input = Raises e).
  { intros e He Hl. unfold decide_action, parse_action. fold raw. rewrite Hl.
    destruct He as [-> | ->]; reflexivity. }
  assert (Htype : forall v, parse_action raw = Returns v -> hashable v = false ->
                            decide_action client user_input = Raises TypeError).
  { intros v Hv Hh. unfold decide_action. fold raw. rewrite Hv.
    cbn [try_except bind]. unfold set_contains. now rewrite Hh. }
  destruct (decide_action_outcomes client user_input)
    as [(a & Hin & Hret) | [(Hraise & v & Hv & Hh) | (e & He & Hl & Hraise)]];
    try fold raw in Hv; try fold raw in Hl.
  - repeat split.
    + rewrite Hret. intros v H. injection H as <-. now exists a.
    + rewrite Hret. discriminate.
    + intros (v & Hv & Hh). rewrite (Htype v Hv Hh) in Hret. discriminate Hret.
    + rewrite Hret. discriminate.
    + assumption.
  - repeat split.
    + rewrite Hraise. discriminate.
    + intros _. now exists v.
    + intros _. assumption.
    + rewrite Hraise. intros e H. injection H as <-. now left.
    + assumption.
  - repeat split.
    + rewrite Hraise. discriminate.
    + rewrite Hraise. intros H. injection H as ->. destruct He; discriminate.
    + intros (v & Hv & Hh). unfold parse_action in Hv. rewrite Hl in Hv.
      discriminate Hv.
    + rewrite Hraise. intros e' H. injection H as <-. right. now split.
    + assumption.
Qed.

Lemma decide_action_result_witness :
  decide_action (constant_client ("{" ++ quoted "action" ++ ": [1, 2]}")) "hi"
  = Raises TypeError.
Proof.
  apply (proj1 (proj2 (decide_action_result
                         (constant_client ("{" ++ quoted "action" ++ ": [1, 2]}")) "hi"))).
  exists (VList [VInt 1; VInt 2]). split; reflexivity.
Defined.

Lemma loads_action_json (a : string) :
  plain a = true ->
  json.loads (action_json a) = Returns (VDict [(text "action", str a)]).
Proof.
  intros Hp. unfold json.loads, json.loads_in.
  remember (2 * length (action_json a) + 1) as budget eqn:Hb.
  assert (Hlen : 3 <= budget) by (subst budget; simpl; lia).
  destruct budget as [|[|[|b]]]; try lia. clear Hb Hlen.
  change (recursion_room cpython) with (S (1000 - 7)).
  unfold action_json, quoted. cbn [append].
  rewrite (append_assoc a). cbn [append].
  cbn -[json.scanstring text Nat.sub].
  pose proof (scanstring_plain "action"
                (String ":" (String " " (String dquote (a ++ String dquote "}"))))
                eq_refl) as E.
  cbn [append] in E. rewrite E. clear E.
  cbn -[json.scanstring text Nat.sub].
  rewrite (scanstring_plain a "}" Hp). reflexivity.
Qed.

(** X2.  When the chooser's reply decodes to an object whose "action" is
    one of the allowed actions, [decide_action] returns that action,
    whatever else the object holds. *)
Theorem decide_action_returns_allowed (client : llm_client) (user_input : string)
        (items : list (ustr * value)) (a : string) :
  json.loads (chat client (build_prompt user_input)) = Returns (VDict items) ->
  dict_lookup items (text "action") = Some (str a) ->
  In a ALLOWED_ACTIONS ->
  decide_action client user_input = Returns (str a).
Proof.
  intros Hload Hget Hin. unfold decide_action, parse_action.
  rewrite Hload. cbn [bind get try_except]. rewrite Hget, set_contains_str.
  replace (existsb (String.eqb a) ALLOWED_ACTIONS) with true; [reflexivity|].
  symmetry. apply existsb_exists. exists a. split; [assumption | apply String.eqb_refl].
Qed.

Lemma decide_action_returns_allowed_witness :
  decide_action
    (constant_client ("{" ++ quoted "confidence" ++ ": 0.9, "
                      ++ quoted "action" ++ ": " ++ quoted "classify_only" ++ "}"))
    "anything"
  = Returns (str "classify_only").
Proof.
  apply (decide_action_returns_allowed _ _
           [(text "confidence", VFloat "0.9"); (text "action", str "classify_only")]).
  - reflexivity.
  - reflexivity.
  - right. left. reflexivity.
Defined.

Lemma decide_action_refuses_hashable_witness :
  decide_action (constant_client ("{" ++ quoted "action" ++ ": 42}")) "anything"
  = Returns (str "refuse").
Proof.
  apply (decide_action_refuses_hashable _ _ [(text "action", VInt 42)] (VInt 42)).
  - reflexivity.
  - reflexivity.
  - reflexivity.
  - intros a _. discriminate.
Defined.

(** X4.  A reply of the agreed form, the object with the one field
    "action" and a name in which no character needs escaping, is decoded
    to that name; [decide_action] then returns the name when it is an
    allowed action and "refuse" when it is any other name. *)
Theorem decide_action_on_action_json (a user_input : string) :
  plain a = true ->
  parse_action (action_json a) = Returns (str a)
  /\ decide_action (constant_client (action_json a)) user_input
     = Returns (str (if existsb (String.eqb a) ALLOWED_ACTIONS then a else "refuse")).
Proof.
  intros Hp.
  assert (Hparse : parse_action (action_json a) = Returns (str a)).
  { unfold parse_action. rewrite (loads_action_json a Hp). reflexivity. }
  split; [assumption|].
  unfold decide_action. cbn [chat constant_client]. rewrite Hparse.
  cbn [try_except bind]. rewrite set_contains_str. cbn [bind].
  now destruct (existsb (String.eqb a) ALLOWED_ACTIONS).
Qed.

Lemma decide_action_on_action_json_witness :
  decide_action (constant_client (action_json "Retrieve_And_Answer")) "What is the rate?"
  = Returns (str "refuse").
Proof.
  apply (proj2 (decide_action_on_action_json "Retrieve_And_Answer" "What is the rate?"
                                             eq_refl)).
Defined.

(* ================================================================== *)
(** ** Further properties: the decision function with the mock chooser *)

Lemma decide_action_mock_eq (user_input user_text : string) :
  is_user_text user_input user_text ->
  decide_action MockLLMClient user_input =
    Returns (str (if any_in ["rate"; "inflation"; "monetary"] (lower user_text)
                  then "retrieve_and_answer"
                  else if any_in ["classify"; "label"; "topic"] (lower user_text)
                  then "classify_only"
                  else "refuse")).
Proof.
  intros H. unfold decide_action. cbn [chat MockLLMClient].
  rewrite chat_build_prompt, (chat_of_user_text _ _ H).
  destruct (any_in ["rate"; "inflation"; "monetary"] _);
    [|destruct (any_in ["classify"; "label"; "topic"] _)]; reflexivity.
Qed.

(** X5.  With the mock chooser, [decide_action] goes by the user text of the
    user input (what follows its last "User input: ", or all of it):
    "retrieve_and_answer" when "rate", "inflation" or "monetary" occurs in
    it regardless of case; else "classify_only" when "classify", "label" or
    "topic" occurs; else "refuse". *)
Theorem decide_action_mock_rule (user_input user_text : string) :
  is_user_text user_input user_text ->
  let retrieve_words := ["rate"; "inflation"; "monetary"] in
  let classify_words := ["classify"; "label"; "topic"] in
  (some_occurs_ci retrieve_words user_text ->
   decide_action MockLLMClient user_input = Returns (str "retrieve_and_answer"))
  /\ (~ some_occurs_ci retrieve_words user_text ->
      some_occurs_ci classify_words user_text ->
      decide_action MockLLMClient user_input = Returns (str "classify_only"))
  /\ (~ some_occurs_ci retrieve_words user_text ->
      ~ some_occurs_ci classify_words user_text ->
      decide_action MockLLMClient user_input = Returns (str "refuse")).
Proof.
  intros Hut retrieve_words classify_words.
  rewrite (decide_action_mock_eq _ _ Hut). fold retrieve_words classify_words.
  assert (E1 : any_in retrieve_words (lower user_text) = true
               <-> some_occurs_ci retrieve_words user_text)
    by apply (any_in_lower_iff retrieve_words).
  assert (E2 : any_in classify_words (lower user_text) = true
               <-> some_occurs_ci classify_words user_text)
    by apply (any_in_lower_iff classify_words).
  destruct (any_in retrieve_words (lower user_text));
    destruct (any_in classify_words (lower user_text));
    repeat split; intros;
    repeat match goal with
           | H : ~ _, E : true = true <-> _ |- _ =>
               exfalso; apply H, E; reflexivity
           | H : some_occurs_ci ?g _, E : false = true <-> some_occurs_ci ?g _ |- _ =>
               apply E in H; discriminate H
           end;
    reflexivity.
Qed.

Lemma decide_action_mock_rule_witness :
  decide_action MockLLMClient "Please CLASSIFY this Rate change"
  = Returns (str "retrieve_and_answer").
Proof.
  apply (proj1 (decide_action_mock_rule "Please CLASSIFY this Rate change"
                  "Please CLASSIFY this Rate change" (or_introl (conj eq_refl eq_refl)))).
  apply Exists_cons_hd.
  exists "Please CLASSIFY this ", "Rate", " change". split; reflexivity.
Defined.

(** X6.  With the mock chooser, a user input that holds "User input: " is
    decided as its part after the last "User input: " alone would be:
    whatever stands before is ignored. *)
Theorem decide_action_mock_after_marker (before after : string) :
  contains marker after = false ->
  decide_action MockLLMClient (before ++ marker ++ after)
  = decide_action MockLLMClient after.
Proof.
  intros Hpost.
  rewrite (decide_action_mock_eq (before ++ marker ++ after) after)
    by (right; now exists before).
  rewrite (decide_action_mock_eq after after) by now left.
  reflexivity.
Qed.

Lemma decide_action_mock_after_marker_witness :
  decide_action MockLLMClient ("What is the inflation rate? " ++ marker ++ "thanks")
  = decide_action MockLLMClient "thanks".
Proof.
  apply (decide_action_mock_after_marker "What is the inflation rate? " "thanks").
  reflexivity.
Defined.

(** X7.  Whenever [decide_action] with the mock chooser picks
    "retrieve_and_answer" for a user input, the tools agree on that input:
    [retrieve_and_answer] gives the answer of a knowledge base entry whose
    keyword occurs in it, never the "No relevant information found."
    text, and [classify_only] labels it interest rates and monetary
    policy. *)
Theorem mock_retrieve_is_grounded (user_input : string) :
  decide_action MockLLMClient user_input = Returns (str "retrieve_and_answer") ->
  classify_only user_input = "Topic: Interest Rates & Monetary Policy"
  /\ exists keyword answer,
       In (keyword, answer) KNOWLEDGE_BASE
       /\ occurs_ci keyword user_input
       /\ retrieve_and_answer user_input
          = "Based on retrieved documents: " ++ answer.
Proof.
  intros H. destruct (user_text_exists user_input) as [ut Hut].
  rewrite (decide_action_mock_eq _ _ Hut) in H.
  destruct (any_in ["rate"; "inflation"; "monetary"] (lower ut)) eqn:E1.
  2:{ destruct (any_in ["classify"; "label"; "topic"] (lower ut));
        vm_compute in H; discriminate H. }
  clear H. destruct (user_text_inside _ _ Hut) as [a Ha].
  assert (E : any_in ["rate"; "inflation"; "monetary"] (lower user_input) = true).
  { rewrite Ha. now apply any_in_inside. }
  split.
  - unfold classify_only.
    rewrite (any_in_incl ["rate"; "inflation"; "monetary"]
               ["rate"; "inflation"; "monetary"; "central bank"] _) ;
      [reflexivity | | assumption].
    intros kw [<- | [<- | [<- | []]]]; simpl; auto.
  - apply any_in_exists in E as (kw & Hin & Hkw).
    assert (Hkey : In kw (map fst KNOWLEDGE_BASE)).
    { destruct Hin as [<- | [<- | [<- | []]]]; simpl; auto 6. }
    destruct (first_hit_some KNOWLEDGE_BASE kw _ Hkey Hkw) as (k' & a' & H1 & H2 & H3).
    exists k', a'. split; [assumption|]. split.
    + apply contains_lower_iff.
      replace (lower k') with k'; [assumption|].
      pose proof knowledge_base_keys_lower as HF. rewrite Forall_forall in HF.
      symmetry. apply (HF (k', a') H1).
    + unfold retrieve_and_answer. now rewrite H3.
Qed.

Lemma mock_retrieve_is_grounded_witness :
  classify_only "Will MONETARY policy tighten?"
  = "Topic: Interest Rates & Monetary Policy".
Proof.
  apply (proj1 (mock_retrieve_is_grounded "Will MONETARY policy tighten?" eq_refl)).
Defined.

(* ================================================================== *)
(** ** Further properties of the tools *)

Lemma any_in_cons (kw : string) (kws : list string) (s : string) :
  any_in (kw :: kws) s = contains kw s || any_in kws s.
Proof. reflexivity. Qed.

(** X8.  Every keyword of the knowledge base is a keyword of the
    classifier: a text that [classify_only] calls out of domain gets
    "No relevant information found." from [retrieve_and_answer], and a text
    for which [retrieve_and_answer] finds an entry is labelled interest
    rates or lending by [classify_only]. *)
Theorem retrieval_within_classified_domain (text : string) :
  (classify_only text = "Topic: Out of Domain" ->
   retrieve_and_answer text
   = "Based on retrieved documents: No relevant information found.")
  /\ (retrieve_and_answer text
      <> "Based on retrieved documents: No relevant information found." ->
      classify_only text = "Topic: Interest Rates & Monetary Policy"
      \/ classify_only text = "Topic: Lending & Credit").
Proof.
  unfold classify_only, retrieve_and_answer.
  destruct (any_in ["rate"; "inflation"; "monetary"; "central bank"] (lower text))
    eqn:E1; [split; [discriminate | now left]|].
  destruct (any_in ["loan"; "mortgage"; "lending"; "credit"] (lower text))
    eqn:E2; [split; [discriminate | now right]|].
  rewrite !any_in_cons in E1, E2.
  repeat match goal with
         | H : _ || _ = false |- _ =>
             let Hl := fresh "Hl" in
             let Hr := fresh "Hr" in
             destruct (proj1 (orb_false_iff _ _) H) as [Hl Hr]; clear H
         end.
  assert (Hnone : first_hit KNOWLEDGE_BASE (lower text) = None).
  { cbn [first_hit KNOWLEDGE_BASE].
    repeat match goal with
           | H : contains ?k (lower text) = false |- context [contains ?k (lower text)] =>
               rewrite H
           end.
    reflexivity. }
  rewrite Hnone. split; [reflexivity | intros H; now destruct H].
Qed.

Lemma retrieval_within_classified_domain_witness :
  classify_only "Is my Loan approved?" = "Topic: Interest Rates & Monetary Policy"
  \/ classify_only "Is my Loan approved?" = "Topic: Lending & Credit".
Proof.
  apply (proj2 (retrieval_within_classified_domain "Is my Loan approved?")).
  vm_compute. discriminate.
Defined.

(** X9.  A text of fewer than four characters, the empty text among them,
    holds no keyword: [classify_only] calls it out of domain,
    [retrieve_and_answer] finds nothing, the mock chooser answers with
    the JSON of "refuse", and [decide_action] with it returns "refuse". *)
Theorem short_text_matches_nothing (text : string) :
  length text < 4 ->
  classify_only text = "Topic: Out of Domain"
  /\ retrieve_and_answer text
     = "Based on retrieved documents: No relevant information found."
  /\ MockLLMClient_chat text = action_json "refuse"
  /\ decide_action MockLLMClient text = Returns (str "refuse").
Proof.
  intros Hlen.
  assert (Hkw : forall kw, 4 <= length kw -> contains kw (lower text) = false).
  { intros kw Hk. apply contains_short. rewrite length_lower. lia. }
  assert (Hm : contains marker text = false)
    by (apply contains_short; simpl; lia).
  assert (Hchat : MockLLMClient_chat text = action_json "refuse").
  { unfold MockLLMClient_chat. rewrite Hm. rewrite !any_in_cons.
    rewrite !Hkw by (simpl; lia). reflexivity. }
  repeat split.
  - unfold classify_only. rewrite !any_in_cons.
    rewrite !Hkw by (simpl; lia). reflexivity.
  - unfold retrieve_and_answer. cbn [first_hit KNOWLEDGE_BASE].
    rewrite !Hkw by (simpl; lia). reflexivity.
  - assumption.
  - rewrite (decide_action_mock_eq text text) by now left.
    rewrite !any_in_cons. rewrite !Hkw by (simpl; lia). reflexivity.
Qed.

Lemma short_text_matches_nothing_witness :
  classify_only "rat" = "Topic: Out of Domain"
  /\ retrieve_and_answer "rat"
     = "Based on retrieved documents: No relevant information found."
  /\ MockLLMClient_chat "rat" = action_json "refuse"
  /\ decide_action MockLLMClient "rat" = Returns (str "refuse").
Proof.
  apply (short_text_matches_nothing "rat"). simpl. lia.
Defined.

(** X10.  No entry of the knowledge base is shadowed by an earlier one: a
    question that is just the keyword of an entry, in any mix of upper and
    lower case, gets the answer of that entry. *)
Theorem knowledge_base_entry_reachable (question keyword answer : string) :
  In (keyword, answer) KNOWLEDGE_BASE ->
  lower question = keyword ->
  retrieve_and_answer question = "Based on retrieved documents: " ++ answer.
Proof.
  intros Hin Hq. unfold retrieve_and_answer. rewrite Hq.
  repeat (destruct Hin as [Hin | Hin];
          [injection Hin as <- <-; reflexivity|]).
  destruct Hin.
Qed.

Lemma knowledge_base_entry_reachable_witness :
  retrieve_and_answer "MONETARY"
  = "Based on retrieved documents: The dual mandate requires balancing maximum employment with price stability.".
Proof.
  apply (knowledge_base_entry_reachable "MONETARY" "monetary").
  - do 4 right. left. reflexivity.
  - reflexivity.
Defined.

(** X11.  [retrieve_and_answer] is exact about what it found: it gives the
    "No relevant information found." text only when no keyword of the
    knowledge base occurs in the question, and it gives the answer of an
    entry only when the keyword of that entry occurs in the question. *)
Theorem retrieve_and_answer_exact (question : string) :
  (retrieve_and_answer question
   = "Based on retrieved documents: No relevant information found." ->
   forall keyword answer,
     In (keyword, answer) KNOWLEDGE_BASE -> ~ occurs_ci keyword question)
  /\ (forall keyword answer,
        In (keyword, answer) KNOWLEDGE_BASE ->
        retrieve_and_answer question = "Based on retrieved documents: " ++ answer ->
        occurs_ci keyword question).
Proof.
  unfold retrieve_and_answer.
  destruct (first_hit KNOWLEDGE_BASE (lower question)) as [grounded|] eqn:E.
  - apply first_hit_sound in E as (k & a & Hin & Hk & ->).
    assert (Hocc : occurs_ci k question).
    { apply contains_lower_iff. replace (lower k) with k; [assumption|].
      pose proof knowledge_base_keys_lower as HF. rewrite Forall_forall in HF.
      symmetry. apply (HF (k, a) Hin). }
    split.
    + intros H. exfalso. simpl in H. injection H as H.
      repeat (destruct Hin as [Hin | Hin];
              [injection Hin as <- <-; discriminate H|]).
      destruct Hin.
    + intros keyword answer Hin' H. simpl in H. injection H as H. subst answer.
      replace keyword with k; [assumption|].
      repeat (destruct Hin as [Hin | Hin];
              [ injection Hin as <- <-;
                repeat (destruct Hin' as [Hin' | Hin']; [congruence|]);
                destruct Hin' |]).
      destruct Hin.
  - split.
    + intros _ keyword answer Hin Hocc.
      assert (Hk : contains keyword (lower question) = true).
      { apply contains_lower_iff in Hocc.
        replace (lower keyword) with keyword in Hocc; [assumption|].
        pose proof knowledge_base_keys_lower as HF. rewrite Forall_forall in HF.
        symmetry. apply (HF (keyword, answer) Hin). }
      assert (Hkey : In keyword (map fst KNOWLEDGE_BASE))
        by (apply (in_map fst _ _ Hin)).
      destruct (first_hit_some _ _ _ Hkey Hk) as (k' & a' & _ & _ & H3).
      congruence.
    + intros keyword answer Hin H. exfalso. simpl in H. injection H as H.
      repeat (destruct Hin as [Hin | Hin];
              [injection Hin as <- <-; discriminate H|]).
      destruct Hin.
Qed.

Lemma retrieve_and_answer_exact_witness :
  ~ occurs_ci "loan" "Tell me about equities".
Proof.
  apply (proj1 (retrieve_and_answer_exact "Tell me about equities") eq_refl
               "loan" "Lending standards tightened as banks responded to higher funding costs.").
  do 3 right. left. reflexivity.
Defined.

(** X12.  The label tells which keywords the text holds: [classify_only]
    gives the interest rate label exactly when a keyword of group 1 occurs,
    the lending label exactly when none of group 1 but one of group 2
    occurs, the equity label exactly when none of groups 1 and 2 but one of
    group 3 occurs, and "Topic: Out of Domain" exactly when none of the
    twelve keywords occurs. *)
Theorem classify_only_label_iff (text : string) :
  let group1 := ["rate"; "inflation"; "monetary"; "central bank"] in
  let group2 := ["loan"; "mortgage"; "lending"; "credit"] in
  let group3 := ["stock"; "equity"; "market"; "earning"] in
  (classify_only text = "Topic: Interest Rates & Monetary Policy"
   <-> some_occurs_ci group1 text)
  /\ (classify_only text = "Topic: Lending & Credit"
      <-> ~ some_occurs_ci group1 text /\ some_occurs_ci group2 text)
  /\ (classify_only text = "Topic: Equity Markets"
      <-> ~ some_occurs_ci group1 text /\ ~ some_occurs_ci group2 text
          /\ some_occurs_ci group3 text)
  /\ (classify_only text = "Topic: Out of Domain"
      <-> ~ some_occurs_ci group1 text /\ ~ some_occurs_ci group2 text
          /\ ~ some_occurs_ci group3 text).
Proof.
  intros group1 group2 group3.
  assert (E1 : any_in group1 (lower text) = true <-> some_occurs_ci group1 text)
    by apply (any_in_lower_iff group1).
  assert (E2 : any_in group2 (lower text) = true <-> some_occurs_ci group2 text)
    by apply (any_in_lower_iff group2).
  assert (E3 : any_in group3 (lower text) = true <-> some_occurs_ci group3 text)
    by apply (any_in_lower_iff group3).
  unfold classify_only. fold group1 group2 group3.
  destruct (any_in group1 (lower text));
    destruct (any_in group2 (lower text));
    destruct (any_in group3 (lower text));
    rewrite <- ?E1, <- ?E2, <- ?E3;
    repeat split; intros;
    repeat match goal with
           | H : _ /\ _ |- _ => destruct H
           | H : ~ true = true |- _ => now destruct H
           end;
    try discriminate; try reflexivity.
Qed.

Lemma classify_only_label_iff_witness :
  ~ some_occurs_ci ["stock"; "equity"; "market"; "earning"] "What is for lunch?".
Proof.
  apply (proj1 (proj2 (proj2 (proj2 (classify_only_label_iff "What is for lunch?"))))
               eq_refl).
Defined.

(** X13.  The two text tools do not tell upper from lower case:
    lower-casing the text first changes neither the label of
    [classify_only] nor the answer of [retrieve_and_answer].  The mock
    chooser is different, because it looks for "User input: " as written:
    lower-casing a prompt can change its reply. *)
Theorem tools_ignore_case_chooser_does_not :
  (forall text, classify_only (lower text) = classify_only text)
  /\ (forall question,
        retrieve_and_answer (lower question) = retrieve_and_answer question)
  /\ (exists prompt,
        MockLLMClient_chat (lower prompt) <> MockLLMClient_chat prompt).
Proof.
  repeat split.
  - intros text. unfold classify_only. now rewrite lower_idempotent.
  - intros question. unfold retrieve_and_answer. now rewrite lower_idempotent.
  - exists "rate User input: hello". vm_compute. discriminate.
Qed.
